(** * OpenDocument.core: a shallow embedding of the detection, decryption
    and translation pipeline, with the properties of its specification.

    Source files covered:
    - [odr/src/Document.cpp]            (module [Document])
    - [odf/src/StyleTranslator.cpp]     (module [StyleTranslator])
    - [src/ContentTranslator.cpp]       (module [ContentTranslator])
    - [common/include/common/TablePosition.h] (module [TablePosition])
    - [crypto/src/CryptoUtil.cpp], [src/CryptoUtil.cpp] (module [CryptoUtil])

    C++ exceptions are modelled by the type [outcome]; [std::string] by
    [string]; [std::unordered_map] by [gmap]; output streams by the string
    written so far; glog records by a list of messages. *)

From Stdlib Require Import ZArith Lia Ascii.
From stdpp Require Import gmap strings list.

Local Open Scope Z_scope.

(** ** Exceptions *)

Module Exceptions.

(** The exception classes that the sources name, and one constructor for
    every other exception a collaborator may raise. *)
Inductive exn : Type :=
  | NoZipFileException
  | NoCfbFileException
  | UnknownFileType
  | OtherException.

#[global] Instance exn_eq_dec : EqDecision exn.
Proof. solve_decision. Defined.

(** The result of evaluating a C++ expression of type [A]. *)
Inductive outcome (A : Type) : Type :=
  | Returned (a : A)
  | Thrown (e : exn).
Arguments Returned {A} a.
Arguments Thrown {A} e.

#[global] Instance outcome_ret : MRet outcome := @Returned.
#[global] Instance outcome_bind : MBind outcome := fun A B f c =>
  match c with
  | Returned a => f a
  | Thrown e => Thrown e
  end.
#[global] Instance outcome_fmap : FMap outcome := fun A B f c =>
  match c with
  | Returned a => Returned (f a)
  | Thrown e => Thrown e
  end.

(** [try { c } catch (...) { h }] *)
Definition try_catch_all {A} (c : outcome A) (h : outcome A) : outcome A :=
  match c with
  | Returned a => Returned a
  | Thrown _ => h
  end.

(** [try { c } catch (E &) { h }]: other exceptions pass through. *)
Definition try_catch {A} (E : exn) (c : outcome A) (h : outcome A) : outcome A :=
  match c with
  | Returned a => Returned a
  | Thrown e => if decide (e = E) then h else Thrown e
  end.

Definition throws {A} (c : outcome A) : Prop := ∃ e, c = Thrown e.

End Exceptions.
Export Exceptions.

(** ** odr/src/Document.cpp *)

Module Document.

(** Modelled from the spec: the enumeration [FileType] of [odr/Meta.h], which
    is not among the sources; the constructors are the ones [Document.cpp]
    names and the variants of the specification's FormatKind. *)
Inductive FileType : Type :=
  | UNKNOWN
  | OPENDOCUMENT_TEXT
  | OPENDOCUMENT_PRESENTATION
  | OPENDOCUMENT_SPREADSHEET
  | OFFICE_OPEN_XML
  | LEGACY_WORD_DOCUMENT
  | LEGACY_POWERPOINT_PRESENTATION
  | LEGACY_EXCEL_WORKSHEETS
  | COMPOUND_FILE_BINARY_FORMAT.

(** Modelled from the spec: the record [FileMeta] of [odr/Meta.h]. *)
Record FileMeta : Type := mkFileMeta {
  type : FileType;
  encrypted : bool;
  entries : list string;
}.

(** [FileMeta meta;] and the [{}] of the catch handlers. *)
Definition FileMeta_default : FileMeta :=
  {| type := UNKNOWN; encrypted := false; entries := [] |}.

Definition set_type (t : FileType) (m : FileMeta) : FileMeta :=
  {| type := t; encrypted := encrypted m; entries := entries m |}.
Definition set_encrypted (b : bool) (m : FileMeta) : FileMeta :=
  {| type := type m; encrypted := b; entries := entries m |}.

(** The operations [Document.cpp] calls on [odf::OpenDocument] and on
    [ooxml::OfficeOpenXml]; both classes live outside the sources, and every
    one of their operations may throw. Non-const operations return the
    document they leave behind. *)
Class DocumentApi (Storage D : Type) : Type := {
  doc_new : Storage → outcome D;
  getMeta : D → outcome FileMeta;
  isDecrypted : D → outcome bool;
  canHtml : D → outcome bool;
  doc_canEdit : D → outcome bool;
  doc_canSave : D → outcome bool;
  doc_canSave_encrypted : D → bool → outcome bool;
  doc_decrypt : D → string → outcome bool * D;
  html : D → string → string → outcome bool * D;
  doc_edit : D → string → outcome bool * D;
  doc_save : D → string → outcome bool;
  doc_save_password : D → string → string → outcome bool;
}.

(** [access::Storage] and its two readers, and [crypto::CfbCrypto::Util]. *)
Class StorageApi (Storage : Type) : Type := {
  ZipReader : string → outcome Storage;
  ZipReader_memory : string → outcome Storage;
  CfbReader : string → outcome Storage;
  isFile : Storage → string → bool;
  storage_read : Storage → string → outcome string;
}.

Class CfbCryptoApi (Util : Type) : Type := {
  Util_new : string → outcome Util;
  deriveKey : Util → string → outcome string;
  verify : Util → string → outcome bool;
  Util_decrypt : Util → string → string → outcome string;
}.

(** A document class is built from a [std::unique_ptr<access::Storage> &]:
    its constructor, which is outside the sources, may move from the pointer
    it is handed. [after_construction s r] is what that pointer holds after a
    construction over the storage [s] that ended in [r]. *)
Class ConstructorApi (Storage D : Type) : Type := {
  after_construction : Storage → outcome D → option Storage;
}.

Section Impl.
Context {Storage OpenDocument OfficeOpenXml Util : Type}.
Context `{!StorageApi Storage}.
Context `{odf : !DocumentApi Storage OpenDocument}.
Context `{ooxml : !DocumentApi Storage OfficeOpenXml}.
Context `{!CfbCryptoApi Util}.
Context `{!ConstructorApi Storage OfficeOpenXml}.

(** [class OfficeOpenXmlImpl]: the members of the base class and its own.
    [storage_] is a [unique_ptr], which may be null. *)
Record OfficeOpenXmlImpl : Type := mkOoxml {
  ox_meta_ : FileMeta;
  ox_decrypted_ : bool;
  ox_storage_ : option Storage;
  ox_document_ : OfficeOpenXml;
}.

Record OpenDocumentImpl : Type := mkOdf {
  od_meta_ : FileMeta;
  od_document_ : OpenDocument;
}.

(** [Document::Impl] and its two final subclasses. *)
Inductive Impl : Type :=
  | Base (meta_ : FileMeta)
  | Odf (i : OpenDocumentImpl)
  | Ooxml (i : OfficeOpenXmlImpl).

Definition meta_ (i : Impl) : FileMeta :=
  match i with
  | Base m => m
  | Odf i => od_meta_ i
  | Ooxml i => ox_meta_ i
  end.

(** *** Constructors *)

Definition OpenDocumentImpl_new (storage : Storage) : outcome Impl :=
  document ← doc_new (D := OpenDocument) storage;
  meta ← getMeta document;
  mret (Odf {| od_meta_ := meta; od_document_ := document |}).

Definition OfficeOpenXmlImpl_new (storage : Storage) : outcome Impl :=
  document ← doc_new (D := OfficeOpenXml) storage;
  meta ← getMeta document;
  mret (Ooxml {| ox_meta_ := meta; ox_decrypted_ := false;
                 ox_storage_ := None; ox_document_ := document |}).

(** *** The members of [Document::Impl] *)

Definition Impl_type (i : Impl) : outcome FileType := Returned (type (meta_ i)).
Definition Impl_encrypted (i : Impl) : outcome bool := Returned (encrypted (meta_ i)).
Definition Impl_meta (i : Impl) : outcome FileMeta := Returned (meta_ i).

Definition Impl_decrypted (i : Impl) : outcome bool :=
  match i with
  | Base _ => Returned false
  | Odf i => isDecrypted (od_document_ i)
  | Ooxml i => isDecrypted (ox_document_ i)
  end.

Definition Impl_canTranslate (i : Impl) : outcome bool :=
  match i with
  | Base _ => Returned false
  | Odf i => canHtml (od_document_ i)
  | Ooxml i => canHtml (ox_document_ i)
  end.

Definition Impl_canEdit (i : Impl) : outcome bool :=
  match i with
  | Base _ => Returned false
  | Odf i => doc_canEdit (od_document_ i)
  | Ooxml i => doc_canEdit (ox_document_ i)
  end.

Definition Impl_canSave (i : Impl) : outcome bool :=
  match i with
  | Base _ => Returned false
  | Odf i => doc_canSave (od_document_ i)
  | Ooxml i => doc_canSave (ox_document_ i)
  end.

Definition Impl_canSave_encrypted (i : Impl) (enc : bool) : outcome bool :=
  match i with
  | Base _ => Returned false
  | Odf i => doc_canSave_encrypted (od_document_ i) enc
  | Ooxml i => doc_canSave_encrypted (ox_document_ i) enc
  end.

(** [const bool result = document_.decrypt(password);
     if (result) meta_ = document_.getMeta(); return result;] *)
Definition Impl_decrypt (i : Impl) (password : string) : outcome bool * Impl :=
  match i with
  | Base _ => (Returned false, i)
  | Odf o =>
      let '(r, d) := doc_decrypt (od_document_ o) password in
      match r with
      | Returned true =>
          match getMeta d with
          | Returned m => (Returned true, Odf {| od_meta_ := m; od_document_ := d |})
          | Thrown e => (Thrown e, Odf {| od_meta_ := od_meta_ o; od_document_ := d |})
          end
      | _ => (r, Odf {| od_meta_ := od_meta_ o; od_document_ := d |})
      end
  | Ooxml o =>
      let '(r, d) := doc_decrypt (ox_document_ o) password in
      let keep m := Ooxml {| ox_meta_ := m; ox_decrypted_ := ox_decrypted_ o;
                             ox_storage_ := ox_storage_ o; ox_document_ := d |} in
      match r with
      | Returned true =>
          match getMeta d with
          | Returned m => (Returned true, keep m)
          | Thrown e => (Thrown e, keep (ox_meta_ o))
          end
      | _ => (r, keep (ox_meta_ o))
      end
  end.

Definition Impl_translate (i : Impl) (path config : string) : outcome bool * Impl :=
  match i with
  | Base _ => (Returned false, i)
  | Odf o =>
      let '(r, d) := html (od_document_ o) path config in
      (r, Odf {| od_meta_ := od_meta_ o; od_document_ := d |})
  | Ooxml o =>
      let '(r, d) := html (ox_document_ o) path config in
      (r, Ooxml {| ox_meta_ := ox_meta_ o; ox_decrypted_ := ox_decrypted_ o;
                   ox_storage_ := ox_storage_ o; ox_document_ := d |})
  end.

Definition Impl_edit (i : Impl) (diff : string) : outcome bool * Impl :=
  match i with
  | Base _ => (Returned false, i)
  | Odf o =>
      let '(r, d) := doc_edit (od_document_ o) diff in
      (r, Odf {| od_meta_ := od_meta_ o; od_document_ := d |})
  | Ooxml o =>
      let '(r, d) := doc_edit (ox_document_ o) diff in
      (r, Ooxml {| ox_meta_ := ox_meta_ o; ox_decrypted_ := ox_decrypted_ o;
                   ox_storage_ := ox_storage_ o; ox_document_ := d |})
  end.

Definition Impl_save (i : Impl) (path : string) : outcome bool :=
  match i with
  | Base _ => Returned false
  | Odf o => doc_save (od_document_ o) path
  | Ooxml o => doc_save (ox_document_ o) path
  end.

Definition Impl_save_password (i : Impl) (path password : string) : outcome bool :=
  match i with
  | Base _ => Returned false
  | Odf o => doc_save_password (od_document_ o) path password
  | Ooxml o => doc_save_password (ox_document_ o) path password
  end.

(** *** [openImpl]

    A [try] block whose body may [return] from the function yields
    [Some i] when it returned [i] and [None] when control fell out of it. *)

Definition attempt (c : outcome Impl) : outcome (option Impl) :=
  try_catch_all (Some <$> c) (Returned None).

Definition zip_block (path : string) : outcome (option Impl) :=
  storage ← ZipReader path;
  r ← attempt (OpenDocumentImpl_new storage);
  match r with
  | Some i => mret (Some i)
  | None => attempt (OfficeOpenXmlImpl_new storage)
  end.

Definition cfb_block (path : string) : outcome (option Impl) :=
  let meta := FileMeta_default in
  storage ← CfbReader path;
  if isFile storage "WordDocument" then
    mret (Some (Base (set_type LEGACY_WORD_DOCUMENT meta)))
  else if isFile storage "PowerPoint Document" then
    mret (Some (Base (set_type LEGACY_POWERPOINT_PRESENTATION meta)))
  else if isFile storage "Workbook" then
    mret (Some (Base (set_type LEGACY_EXCEL_WORKSHEETS meta)))
  else
    let meta := set_type COMPOUND_FILE_BINARY_FORMAT meta in
    let meta := set_encrypted (isFile storage "EncryptionInfo" &&
                               isFile storage "EncryptedPackage") meta in
    attempt (OfficeOpenXmlImpl_new storage).

Definition openImpl (path : string) : outcome Impl :=
  r ← try_catch NoZipFileException (zip_block path) (Returned None);
  match r with
  | Some i => Returned i
  | None =>
      r ← try_catch NoCfbFileException (cfb_block path) (Returned None);
      match r with
      | Some i => Returned i
      | None => Thrown UnknownFileType
      end
  end.

(** [openImpl(path, as)]: [// TODO implement]. *)
Definition openImpl_as (path : string) (as_ : FileType) : outcome Impl :=
  Thrown UnknownFileType.

(** *** [OfficeOpenXmlImpl::decrypt_]

    A member function runs on the object and on the trace of the calls made
    so far to the storage and to the crypto utility; [None] is the undefined
    behaviour of reading through a null [storage_]. An exception leaves the
    object as it was when it was raised. *)

Inductive event : Type :=
  | ReadStream (name : string)
  | ParseEncryptionInfo
  | DeriveKey
  | VerifyKey
  | BulkDecrypt
  | OpenPackage.

#[global] Instance event_eq_dec : EqDecision event.
Proof. solve_decision. Defined.

Definition method (A : Type) : Type :=
  OfficeOpenXmlImpl * list event →
  option (outcome A * (OfficeOpenXmlImpl * list event)).

#[global] Instance method_ret : MRet method := fun A a st => Some (Returned a, st).
#[global] Instance method_bind : MBind method := fun A B f m st =>
  match m st with
  | None => None
  | Some (Thrown e, st') => Some (Thrown e, st')
  | Some (Returned a, st') => f a st'
  end.

Definition call {A} (ev : event) (c : outcome A) : method A :=
  fun st => Some (c, (st.1, st.2 ++ [ev])).
Definition lift {A} (c : outcome A) : method A :=
  fun st => Some (c, st).
Definition deref_storage_ : method Storage :=
  fun st => s ← ox_storage_ st.1; Some (Returned s, st).
Definition assign_storage_ (s : Storage) : method unit :=
  fun st => Some (Returned (),
    ({| ox_meta_ := ox_meta_ st.1; ox_decrypted_ := ox_decrypted_ st.1;
        ox_storage_ := Some s; ox_document_ := ox_document_ st.1 |}, st.2)).
(** [ooxml::OfficeOpenXml(storage_)]: the constructor runs on the member
    [storage_] itself, and leaves in it what it leaves in its argument. *)
Definition construct_on_storage_ : method OfficeOpenXml :=
  fun st =>
    s ← ox_storage_ st.1;
    let r := doc_new (D := OfficeOpenXml) s in
    Some (r,
      ({| ox_meta_ := ox_meta_ st.1; ox_decrypted_ := ox_decrypted_ st.1;
          ox_storage_ := after_construction s r;
          ox_document_ := ox_document_ st.1 |}, st.2)).
Definition assign_document_ (d : OfficeOpenXml) : method unit :=
  fun st => Some (Returned (),
    ({| ox_meta_ := ox_meta_ st.1; ox_decrypted_ := ox_decrypted_ st.1;
        ox_storage_ := ox_storage_ st.1; ox_document_ := d |}, st.2)).
Definition assign_meta_ (m : FileMeta) : method unit :=
  fun st => Some (Returned (),
    ({| ox_meta_ := m; ox_decrypted_ := ox_decrypted_ st.1;
        ox_storage_ := ox_storage_ st.1; ox_document_ := ox_document_ st.1 |}, st.2)).

Definition decrypt_ (password : string) : method bool :=
  storage ← deref_storage_;
  encryptionInfo ← call (ReadStream "EncryptionInfo")
                        (storage_read storage "EncryptionInfo");
  util ← call ParseEncryptionInfo (Util_new encryptionInfo);
  key ← call DeriveKey (deriveKey util password);
  verified ← call VerifyKey (verify util key);
  if negb verified then mret false else
  storage ← deref_storage_;
  encryptedPackage ← call (ReadStream "EncryptedPackage")
                          (storage_read storage "EncryptedPackage");
  decryptedPackage ← call BulkDecrypt (Util_decrypt util encryptedPackage key);
  newStorage ← call OpenPackage (ZipReader_memory decryptedPackage);
  assign_storage_ newStorage;;
  document ← construct_on_storage_;
  assign_document_ document;;
  meta ← lift (getMeta document);
  assign_meta_ meta;;
  mret true.

(** *** The facade [class Document] *)

Record Document : Type := mkDocument { impl_ : Impl }.

Definition Document_open (path : string) : outcome (option Document) :=
  try_catch_all (i ← openImpl path; mret (Some (mkDocument i))) (Returned None).

Definition Document_open_as (path : string) (as_ : FileType)
  : outcome (option Document) :=
  try_catch_all (i ← openImpl_as path as_; mret (Some (mkDocument i)))
                (Returned None).

Definition Document_readType (path : string) : outcome FileType :=
  try_catch_all (document ← openImpl path; Impl_type document) (Returned UNKNOWN).

Definition Document_readMeta (path : string) : outcome FileMeta :=
  try_catch_all (document ← openImpl path; Impl_meta document)
                (Returned FileMeta_default).

Definition Document_type (d : Document) : outcome FileType :=
  try_catch_all (Impl_type (impl_ d)) (Returned UNKNOWN).

Definition Document_encrypted (d : Document) : outcome bool :=
  try_catch_all (Impl_encrypted (impl_ d)) (Returned false).

Definition Document_meta (d : Document) : outcome FileMeta :=
  try_catch_all (Impl_meta (impl_ d)) (Returned FileMeta_default).

Definition Document_decrypted (d : Document) : outcome bool :=
  try_catch_all (Impl_decrypted (impl_ d)) (Returned false).

Definition Document_canTranslate (d : Document) : outcome bool :=
  try_catch_all (Impl_canTranslate (impl_ d)) (Returned false).

Definition Document_canEdit (d : Document) : outcome bool :=
  try_catch_all (Impl_canEdit (impl_ d)) (Returned false).

Definition Document_canSave_encrypted (d : Document) (enc : bool) : outcome bool :=
  try_catch_all (Impl_canSave_encrypted (impl_ d) enc) (Returned false).

Definition Document_canSave (d : Document) : outcome bool :=
  Document_canSave_encrypted d false.

Definition Document_decrypt (d : Document) (password : string)
  : outcome bool * Document :=
  let '(r, i) := Impl_decrypt (impl_ d) password in
  (try_catch_all r (Returned false), mkDocument i).

Definition Document_translate (d : Document) (path config : string)
  : outcome bool * Document :=
  let '(r, i) := Impl_translate (impl_ d) path config in
  (try_catch_all r (Returned false), mkDocument i).

Definition Document_edit (d : Document) (diff : string)
  : outcome bool * Document :=
  let '(r, i) := Impl_edit (impl_ d) diff in
  (try_catch_all r (Returned false), mkDocument i).

Definition Document_save (d : Document) (path : string) : outcome bool :=
  try_catch_all (Impl_save (impl_ d) path) (Returned false).

Definition Document_save_password (d : Document) (path password : string)
  : outcome bool :=
  try_catch_all (Impl_save_password (impl_ d) path password) (Returned false).

(** *** Notions the properties of this file are stated with *)

(** What a facade operation yields for the outcome of the call it wraps. *)
Definition or_else {A} (inner : outcome A) (dflt : A) : A :=
  match inner with
  | Returned a => a
  | Thrown _ => dflt
  end.

(** The calls [decrypt_] makes when the key does not verify. *)
Definition wrong_password_calls : list event :=
  [ReadStream "EncryptionInfo"; ParseEncryptionInfo; DeriveKey; VerifyKey].

(** The ZIP sniffers decline: the file is no ZIP archive, or it is one that
    neither document class accepts. *)
Definition zip_declines (path : string) : Prop :=
  ZipReader path = Thrown NoZipFileException ∨
  ∃ storage : Storage,
    ZipReader path = Returned storage ∧
    throws (OpenDocumentImpl_new storage) ∧
    throws (OfficeOpenXmlImpl_new storage).

End Impl.

End Document.

(** ** tinyxml2 documents, as the translators read them *)

Module Xml.

Record XMLAttribute : Type := mkAttribute {
  attr_Name : string;
  Value : string;
}.

(** A node is a text, an element, or a node of another kind (a comment, a
    declaration), for which both [ToText()] and [ToElement()] are null. *)
Inductive XMLNode : Type :=
  | NText (value : string)
  | NComment (value : string)
  | NElement (e : XMLElement)
with XMLElement : Type :=
  | mkElement (name : string) (attributes : list XMLAttribute)
              (children : list XMLNode).

Definition Name (e : XMLElement) : string :=
  match e with mkElement n _ _ => n end.
Definition attributes (e : XMLElement) : list XMLAttribute :=
  match e with mkElement _ a _ => a end.
Definition children (e : XMLElement) : list XMLNode :=
  match e with mkElement _ _ c => c end.

(** [FindAttribute]: the first attribute of that name, or null. *)
Definition FindAttribute (e : XMLElement) (name : string) : option XMLAttribute :=
  snd <$> list_find (λ a, attr_Name a = name) (attributes e).

(** [QueryStringAttribute]: [XML_SUCCESS] with the value, or
    [XML_NO_ATTRIBUTE]. *)
Definition QueryStringAttribute (e : XMLElement) (name : string) : option string :=
  Value <$> FindAttribute e name.

Definition is_digit (c : ascii) : bool :=
  (48 <=? Z.of_nat (nat_of_ascii c)) && (Z.of_nat (nat_of_ascii c) <=? 57).

Definition digit_value (c : ascii) : Z := Z.of_nat (nat_of_ascii c) - 48.

Fixpoint skip_space (s : string) : string :=
  match s with
  | String c rest => if Ascii.is_space c then skip_space rest else s
  | EmptyString => s
  end.

(** The digits at the head of [s], accumulated in base ten; [None] when
    [s] starts with no digit. *)
Fixpoint scan_digits (acc : option Z) (s : string) : option Z :=
  match s with
  | String c rest =>
      if is_digit c
      then scan_digits (Some (default 0 acc * 10 + digit_value c)) rest
      else acc
  | EmptyString => acc
  end.

Definition INT64_MIN : Z := - 2 ^ 63.
Definition INT64_MAX : Z := 2 ^ 63 - 1.

(** [XMLUtil::ToInt64], which reads its argument with the conversion
    [%lld]: blanks, an optional sign, decimal digits; what follows the digits
    is ignored, and a value out of range is the nearest bound. *)
Definition ToInt64 (str : string) : option Z :=
  let clamp v := Z.max INT64_MIN (Z.min INT64_MAX v) in
  match skip_space str with
  | String "-" rest => (λ v, clamp (- v)) <$> scan_digits None rest
  | String "+" rest => clamp <$> scan_digits None rest
  | s => clamp <$> scan_digits None s
  end.

Definition QueryInt64Attribute (e : XMLElement) (name : string) : option Z :=
  a ← FindAttribute e name; ToInt64 (Value a).

(** [Int64Attribute(name, defaultValue)] *)
Definition Int64Attribute (e : XMLElement) (name : string) (defaultValue : Z) : Z :=
  default defaultValue (QueryInt64Attribute e name).

End Xml.
Export Xml.

(** ** The translation state: output stream, [Context] and the glog sink *)

Module Translation.

(** [Context]: the stream the style sheet is written to and the map from an
    escaped style name to the names it depends on. *)
Record Context : Type := mkContext {
  output : string;
  styleDependencies : gmap string (list string);
}.

Inductive severity : Type := WARNING | ERROR.

(** What a translator function works on: the stream [out] it was handed,
    the [context], and the records logged so far. *)
Record State : Type := mkState {
  out : string;
  context : Context;
  glog : list (severity * string);
}.

(** [out << s] *)
Definition write (s : string) (st : State) : State :=
  {| out := out st +:+ s; context := context st; glog := glog st |}.

(** [LOG(sev) << msg] *)
Definition LOG (sev : severity) (msg : string) (st : State) : State :=
  {| out := out st; context := context st; glog := glog st ++ [(sev, msg)] |}.

(** [context.styleDependencies[name].push_back(dep)]: [operator[]] creates an
    empty list under a name that has none. *)
Definition push_dependency (name dep : string) (st : State) : State :=
  let deps := styleDependencies (context st) in
  {| out := out st;
     context := {| output := output (context st);
                   styleDependencies :=
                     <[name := default [] (deps !! name) ++ [dep]]> deps |};
     glog := glog st |}.

(** The double quote and the line feed, which a literal cannot hold. *)
Definition dq : string := String "034" "".
Definition lf : string := String "010" "".

(** A map built by assignments [m[k] = v], in order. *)
Definition assign_all {V} (l : list (string * V)) (m : gmap string V) : gmap string V :=
  fold_left (λ m kv, <[kv.1 := kv.2]> m) l m.

(** The ancestors and then the style's own name, each ancestor followed by
    a blank. *)
Definition join_classes (ancestors : list string) (name : string) : string :=
  foldr (λ a acc, a +:+ " " +:+ acc) name ancestors.

Fixpoint spaces (n : nat) : string :=
  match n with
  | O => ""
  | S n => " " +:+ spaces n
  end.

(** A state with nothing written, no style and no record. *)
Definition empty_state : State :=
  {| out := ""; context := {| output := ""; styleDependencies := ∅ |}; glog := [] |}.

Definition with_out (s : string) (st : State) : State :=
  {| out := s; context := context st; glog := glog st |}.

End Translation.
Export Translation.

(** ** odf/src/StyleTranslator.cpp *)

Module StyleTranslator.

(** Modelled from the spec: [common::StringUtil::findAndReplaceAll], which is
    not among the sources; every occurrence of [search], found from left to
    right and not overlapping, is replaced. An empty [search] replaces
    nothing. *)
Fixpoint replace_from (search replace : string) (skip : nat) (s : string) : string :=
  match s with
  | EmptyString => EmptyString
  | String c rest =>
      match skip with
      | S k => replace_from search replace k rest
      | O =>
          if String.prefix search s
          then replace +:+ replace_from search replace (String.length search - 1) rest
          else String c (replace_from search replace O rest)
      end
  end.

Definition findAndReplaceAll (s search replace : string) : string :=
  match search with
  | EmptyString => s
  | _ => replace_from search replace O s
  end.

Definition escapeStyleName (name : string) : string :=
  findAndReplaceAll name "." "_".

(** [XmlUtil::visitElementChildren] and [XmlUtil::visitElementAttributes]. *)
Definition visitElementChildren (e : XMLElement)
    (f : XMLElement → State → State) (st : State) : State :=
  fold_left (λ st n, match n with NElement c => f c st | _ => st end)
            (children e) st.

Definition visitElementAttributes (e : XMLElement)
    (f : XMLAttribute → State → State) (st : State) : State :=
  fold_left (λ st a, f a st) (attributes e) st.

Definition substitution : gmap string string :=
  list_to_map [
    ("fo:text-align", "text-align");
    ("fo:font-size", "font-size");
    ("fo:font-weight", "font-weight");
    ("fo:font-style", "font-style");
    ("fo:font-size", "font-size");
    ("fo:text-shadow", "text-shadow");
    ("fo:color", "color");
    ("fo:background-color", "background-color");
    ("fo:page-width", "width");
    ("fo:page-height", "height");
    ("fo:margin-top", "margin-top");
    ("fo:margin-right", "margin-right");
    ("fo:margin-bottom", "margin-bottom");
    ("fo:margin-left", "margin-left");
    ("fo:padding", "padding");
    ("fo:padding-top", "padding-top");
    ("fo:padding-right", "padding-right");
    ("fo:padding-bottom", "padding-bottom");
    ("fo:padding-left", "padding-left");
    ("fo:border", "border");
    ("fo:border-top", "border-top");
    ("fo:border-right", "border-right");
    ("fo:border-bottom", "border-bottom");
    ("fo:border-left", "border-left");
    ("style:font-name", "font-family");
    ("style:width", "width");
    ("style:height", "height");
    ("style:vertical-align", "vertical-align");
    ("style:column-width", "width");
    ("style:row-height", "height")
  ].

Definition StylePropertiesTranslator (a : XMLAttribute) (st : State) : State :=
  let property := attr_Name a in
  match substitution !! property with
  | Some css => write (css +:+ ":" +:+ Value a +:+ ";") st
  | None =>
      if decide (property = "style:text-underline-style") then
        if decide (Value a = "solid") then write "text-decoration:underline;" st
        else st
      else if decide (property = "style:text-line-through-style") then
        if decide (Value a = "solid") then write "text-decoration:line-through;" st
        else st
      else st
  end.

Definition elementToNameAttr : gmap string string :=
  list_to_map [
    ("style:default-style", "style:family");
    ("style:style", "style:name")
  ].

Definition StyleClassTranslator (in_ : XMLElement) (st : State) : State :=
  match elementToNameAttr !! Name in_ with
  | None => st
  | Some nameAttrName =>
      match FindAttribute in_ nameAttrName with
      | None =>
          LOG WARNING ("skipped style " +:+ Name in_ +:+ ". no name attribute.") st
      | Some nameAttr =>
          let name := escapeStyleName (Value nameAttr) in
          let st :=
            match QueryStringAttribute in_ "style:parent-style-name" with
            | Some parentStyleName =>
                push_dependency name (escapeStyleName parentStyleName) st
            | None => st
            end in
          let st :=
            match QueryStringAttribute in_ "style:family" with
            | Some family => push_dependency name (escapeStyleName family) st
            | None => st
            end in
          let st := write ("." +:+ name +:+ "." +:+ name +:+ " {") st in
          let st :=
            visitElementChildren in_
              (λ e, visitElementAttributes e StylePropertiesTranslator) st in
          write ("}" +:+ lf) st
      end
  end.

(** [StyleTranslator::css]: the stream handed to [StyleClassTranslator] is
    [*context.output]; the callee writes to it through [out] only, so the
    stream is copied in and stored back. *)
Definition css (in_ : XMLElement) (context : Context) (glog : list (severity * string))
  : Context * list (severity * string) :=
  let st := {| out := output context; context := context; glog := glog |} in
  let st := visitElementChildren in_ StyleClassTranslator st in
  ({| output := out st;
      styleDependencies := styleDependencies (Translation.context st) |},
   Translation.glog st).

End StyleTranslator.

(** ** src/ContentTranslator.cpp *)

Module ContentTranslator.

(** The two attribute translators. *)
Inductive AttributeTranslator : Type :=
  | DefaultAttributeTranslator (name : string)
  | StyleAttributeTranslator.

(** The element translators; a [DefaultElementTranslator] carries the tag
    name, the attributes it adds, and its table of attribute translators,
    whose entries may be null. *)
Inductive ElementTranslator : Type :=
  | DefaultElementTranslator (name : string)
      (newAttributes : list (string * string))
      (attributeTranslator : gmap string (option AttributeTranslator))
  | SpaceTranslator
  | TabTranslator
  | LinkTranslator
  | BookmarkTranslator.

Definition AttributeTranslator_translate (t : AttributeTranslator)
    (in_ : XMLAttribute) (st : State) : State :=
  match t with
  | DefaultAttributeTranslator name =>
      write (" " +:+ name +:+ "=" +:+ dq +:+ Value in_ +:+ dq) st
  | StyleAttributeTranslator =>
      let styleName := Value in_ in
      match styleDependencies (context st) !! styleName with
      | None => LOG WARNING ("unknown style: " +:+ styleName) st
      | Some deps =>
          let st := write ("class=" +:+ dq) st in
          let st := fold_left (λ st i, write (i +:+ " ") st) (rev deps) st in
          write (styleName +:+ dq) st
      end
  end.

(** The constructor of [DefaultElementTranslator] and of its subclasses. *)
Definition DefaultElementTranslator_new (name : string) : ElementTranslator :=
  DefaultElementTranslator name []
    (assign_all [("text:style-name", Some StyleAttributeTranslator);
                 ("table:style-name", Some StyleAttributeTranslator)] ∅).

Definition extend (t : ElementTranslator) (attrs : list (string * string))
    (more : list (string * option AttributeTranslator)) : ElementTranslator :=
  match t with
  | DefaultElementTranslator name newAttributes attributeTranslator =>
      DefaultElementTranslator name (newAttributes ++ attrs)
                               (assign_all more attributeTranslator)
  | _ => t
  end.

Definition TableTranslator : ElementTranslator :=
  extend (DefaultElementTranslator_new "table")
    [("border", "0"); ("cellspacing", "0"); ("cellpadding", "0")]
    [("table:name", None); ("table:print", None)].

Definition TableColumnTranslator : ElementTranslator :=
  extend (DefaultElementTranslator_new "col") []
    [("table:default-cell-style-name", None);
     ("table:number-columns-repeated", None)].

Definition TableRowTranslator : ElementTranslator :=
  extend (DefaultElementTranslator_new "tr") []
    [("table:number-rows-repeated", None)].

Definition TableCellTranslator : ElementTranslator :=
  extend (DefaultElementTranslator_new "td") []
    [("table:formula", None);
     ("table:number-columns-spanned", Some (DefaultAttributeTranslator "colspan"));
     ("table:number-rows-spanned", Some (DefaultAttributeTranslator "rowspan"));
     ("table:number-columns-repeated", None);
     ("office:value", None);
     ("office:value-type", None);
     ("office:string-value", None)].

(** The loop of [DefaultElementTranslator::translateStart] over the
    attributes of [in_]. *)
Definition translate_attribute (in_ : XMLElement)
    (attributeTranslator : gmap string (option AttributeTranslator))
    (st : State) (attr : XMLAttribute) : State :=
  let attributeName := attr_Name attr in
  match attributeTranslator !! attributeName with
  | None =>
      LOG WARNING ("unhandled attribute: " +:+ Name in_ +:+ " " +:+ attributeName) st
  | Some None => st
  | Some (Some t) => AttributeTranslator_translate t attr (write " " st)
  end.

(** [for (uint64_t i = 0; i < count; ++i) out << " ";] for a positive
    [count]. *)
Definition write_spaces (count : Z) (st : State) : State :=
  Nat.iter (Z.to_nat count) (write " ") st.

Definition starts_with_hash (s : string) : bool :=
  match s with
  | String "#" _ => true
  | _ => false
  end.

Definition translateStart (t : ElementTranslator) (in_ : XMLElement) (st : State)
  : State :=
  match t with
  | DefaultElementTranslator name newAttributes attributeTranslator =>
      let st := write ("<" +:+ name) st in
      let st := fold_left
                  (λ st a, write (" " +:+ a.1 +:+ "=" +:+ dq +:+ a.2 +:+ dq) st)
                  newAttributes st in
      let st := fold_left (translate_attribute in_ attributeTranslator)
                          (attributes in_) st in
      write ">" st
  | SpaceTranslator =>
      let count := Int64Attribute in_ "text:c" (-1) in
      if count <=? 0 then st else write_spaces count st
  | TabTranslator => write (String "009" "") st
  | LinkTranslator =>
      let href := FindAttribute in_ "xlink:href" in
      let st := write "<a" st in
      let st :=
        match href with
        | Some href =>
            let st := write (" href" +:+ dq +:+ Value href +:+ dq) st in
            if starts_with_hash (Value href)
            then write (" target" +:+ dq +:+ "_self" +:+ dq) st
            else st
        | None => LOG WARNING "empty link" st
        end in
      write ">" st
  | BookmarkTranslator =>
      let id := FindAttribute in_ "text:name" in
      let st := write "<a" st in
      let st :=
        match id with
        | Some id => write (" id=" +:+ dq +:+ Value id +:+ dq) st
        | None => LOG WARNING "empty bookmark" st
        end in
      write ">" st
  end.

Definition translateEnd (t : ElementTranslator) (in_ : XMLElement) (st : State)
  : State :=
  match t with
  | DefaultElementTranslator name _ _ => write ("</" +:+ name +:+ ">") st
  | SpaceTranslator => st
  | TabTranslator => st
  | LinkTranslator => write "</a>" st
  | BookmarkTranslator => write "</a>" st
  end.

(** The table the constructor of [DefaultContentTranslatorImpl] fills. *)
Definition elementTranslator : gmap string (option ElementTranslator) :=
  assign_all [
    ("office:body", None);
    ("office:text", None);
    ("office:spreadsheet", None);
    ("text:p", Some (DefaultElementTranslator_new "p"));
    ("text:h", Some (DefaultElementTranslator_new "h"));
    ("text:span", Some (DefaultElementTranslator_new "span"));
    ("text:a", Some LinkTranslator);
    ("text:s", Some SpaceTranslator);
    ("text:tab", Some TabTranslator);
    ("text:line-break", Some (DefaultElementTranslator_new "br"));
    ("text:soft-page-break", None);
    ("text:list", Some (DefaultElementTranslator_new "ul"));
    ("text:list-item", Some (DefaultElementTranslator_new "li"));
    ("text:bookmark", Some BookmarkTranslator);
    ("text:bookmark-start", Some BookmarkTranslator);
    ("text:bookmark-end", None);
    ("text:sequence-decls", None);
    ("text:sequence-decl", None);
    ("table:table", Some TableTranslator);
    ("table:table-column", Some TableColumnTranslator);
    ("table:table-row", Some TableRowTranslator);
    ("table:table-cell", Some TableCellTranslator);
    ("table:tracked-changes", None);
    ("table:calculation-settings", None);
    ("table:iteration", None)
  ] ∅.

(** [DefaultContentTranslatorImpl::translate]; [translator] is [None] both
    for a name the table lacks and for a name it maps to null. *)
Fixpoint translate (in_ : XMLElement) (st : State) {struct in_} : State :=
  match in_ with
  | mkElement elementName _ children =>
      let found := elementTranslator !! elementName in
      let st :=
        match found with
        | Some _ => st
        | None => LOG WARNING ("unhandled element: " +:+ elementName) st
        end in
      let translator := found ≫= id in
      let st :=
        match translator with
        | Some t => translateStart t in_ st
        | None => st
        end in
      let st :=
        (fix loop (cs : list XMLNode) (st : State) {struct cs} : State :=
           match cs with
           | [] => st
           | child :: rest =>
               loop rest
                 match child with
                 | NText value => write value st
                 | NElement e => translate e st
                 | NComment _ => st
                 end
           end) children st in
      match translator with
      | Some t => translateEnd t in_ st
      | None => st
      end
  end.

(** The loop of [translate] over the children, on its own. *)
Definition translate_child (st : State) (child : XMLNode) : State :=
  match child with
  | NText value => write value st
  | NElement e => translate e st
  | NComment _ => st
  end.

Definition translate_children (cs : list XMLNode) (st : State) : State :=
  fold_left translate_child cs st.

#[global] Instance AttributeTranslator_eq_dec : EqDecision AttributeTranslator.
Proof. solve_decision. Defined.

(** An entry of the table sends both style attributes to a
    [StyleAttributeTranslator] (an entry that renames the element, that is;
    the others read no attribute list). *)
Definition resolves_style_names (t : option ElementTranslator) : bool :=
  match t with
  | Some (DefaultElementTranslator _ _ attributeTranslator) =>
      bool_decide (attributeTranslator !! "text:style-name"
                   = Some (Some StyleAttributeTranslator))
      && bool_decide (attributeTranslator !! "table:style-name"
                      = Some (Some StyleAttributeTranslator))
  | _ => true
  end.

End ContentTranslator.

(** ** crypto/src/CryptoUtil.cpp and src/CryptoUtil.cpp *)

Module CryptoUtil.

(** A [std::string] used as a byte buffer. *)
Abbreviation bytes := (list Byte.byte).

(** The Crypto++ decryptors the file instantiates. *)
Inductive cipher : Type :=
  | ECB_AES
  | CBC_AES
  | CBC_DES_EDE3
  | CFB_Blowfish.

(** Crypto++ itself is outside the sources: [SetKey] and [SetKeyWithIV]
    yield a keyed decryptor or throw (a key or an IV of a length the cipher
    does not take), and [ProcessData] yields the bytes it writes for an
    input. *)
Class CryptoPP (Decryption : Type) : Type := {
  SetKey : cipher → bytes → outcome Decryption;
  SetKeyWithIV : cipher → bytes → bytes → outcome Decryption;
  ProcessData : Decryption → bytes → bytes;
}.

(** [std::string result(n, '\0')] *)
Definition zeroed (n : nat) : bytes := replicate n Byte.x00.

(** [ProcessData(out, in, length)] writes through the pointer [out], at most
    [length] bytes: the buffer keeps its size whatever is written. *)
Definition store (buffer written : bytes) (length : nat) : bytes :=
  let w := take (min length (List.length buffer)) written in
  w ++ drop (List.length w) buffer.

Section Decrypt.
Context {Decryption : Type} `{!CryptoPP Decryption}.

Definition process (decryptor : Decryption) (input : bytes) : bytes :=
  let result := zeroed (length input) in
  store result (ProcessData decryptor input) (length input).

(** [decryptAES(key, input)], of [crypto/src/CryptoUtil.cpp] only. *)
Definition decryptAES_ECB (key input : bytes) : outcome bytes :=
  decryptor ← SetKey ECB_AES key;
  mret (process decryptor input).

Definition decryptAES (key iv input : bytes) : outcome bytes :=
  decryptor ← SetKeyWithIV CBC_AES key iv;
  mret (process decryptor input).

Definition decryptTripleDES (key iv input : bytes) : outcome bytes :=
  decryptor ← SetKeyWithIV CBC_DES_EDE3 key iv;
  mret (process decryptor input).

Definition decryptBlowfish (key iv input : bytes) : outcome bytes :=
  decryptor ← SetKeyWithIV CFB_Blowfish key iv;
  mret (process decryptor input).

End Decrypt.

End CryptoUtil.

(** ** common/include/common/TablePosition.h *)

Module TablePosition.

(** A [std::string], by its characters. *)
Abbreviation chars := (list ascii).

(** [std::uint32_t] arithmetic. *)
Definition wrap32 (z : Z) : Z := z mod 2 ^ 32.

(** The two data members. *)
Record TablePosition : Type := mkTablePosition {
  row : Z;
  col : Z;
}.

Definition getRow (p : TablePosition) : Z := row p.
Definition getCol (p : TablePosition) : Z := col p.

Definition code (c : ascii) : Z := Z.of_nat (nat_of_ascii c).
Definition char_of (z : Z) : ascii := ascii_of_nat (Z.to_nat z).

Definition toupper (c : ascii) : ascii :=
  if (97 <=? code c) && (code c <=? 122) then char_of (code c - 32) else c.

(** The value of a column letter, from 1 for A to 26 for Z, in either
    case. *)
Definition letter_value (c : ascii) : option Z :=
  let u := code (toupper c) in
  if (65 <=? u) && (u <=? 90) then Some (u - 64) else None.

Definition is_letter (c : ascii) : bool :=
  match letter_value c with Some _ => true | None => false end.

Fixpoint col_value (acc : Z) (s : chars) : option Z :=
  match s with
  | [] => Some acc
  | c :: rest => v ← letter_value c; col_value (wrap32 (acc * 26 + v)) rest
  end.

(** Modelled from the spec: [to_col_num], declared in the header and defined
    outside the sources; the column is written in base 26 with the symbols A
    to Z, A being column 0, and an empty string or another character fails. *)
Definition to_col_num (s : chars) : option Z :=
  match s with
  | [] => None
  | _ => n ← col_value 0 s; Some (wrap32 (n - 1))
  end.

Fixpoint col_letters (fuel : nat) (n : Z) (acc : chars) : chars :=
  match fuel with
  | O => acc
  | S fuel =>
      if n <=? 0 then acc
      else col_letters fuel ((n - 1) / 26) (char_of (65 + (n - 1) mod 26) :: acc)
  end.

(** Modelled from the spec: [to_col_string], the inverse encoding. A 32-bit
    value has at most seven letters. *)
Definition to_col_string (col : Z) : chars :=
  col_letters 32 (wrap32 (col + 1)) [].

Fixpoint dec_value (acc : Z) (s : chars) : option Z :=
  match s with
  | [] => Some acc
  | c :: rest =>
      if is_digit c then dec_value (acc * 10 + digit_value c) rest else None
  end.

Fixpoint dec_digits (fuel : nat) (n : Z) (acc : chars) : chars :=
  match fuel with
  | O => acc
  | S fuel =>
      if n <=? 0 then acc
      else dec_digits fuel (n / 10) (char_of (48 + n mod 10) :: acc)
  end.

(** [std::to_string] of a 32-bit value. *)
Definition to_string (n : Z) : chars :=
  if n =? 0 then ["0"%char] else dec_digits 32 n [].

Fixpoint span_letters (s : chars) : chars * chars :=
  match s with
  | c :: rest =>
      if is_letter c
      then let '(letters, tail) := span_letters rest in (c :: letters, tail)
      else ([], s)
  | [] => ([], [])
  end.

(** Modelled from the spec: the constructor from a string (the
    specification's [fromString]): column letters, then the row in decimal,
    counted from 1; it fails on an empty column, on a row that is no decimal
    number and on row 0. *)
Definition fromString (s : chars) : option TablePosition :=
  let '(letters, digits) := span_letters s in
  c ← to_col_num letters;
  match digits with
  | [] => None
  | _ =>
      r ← dec_value 0 digits;
      if r =? 0 then None
      else Some {| row := wrap32 (r - 1); col := c |}
  end.

(** Modelled from the spec: [toString], the column letters followed by the
    row counted from 1. *)
Definition toString (p : TablePosition) : chars :=
  to_col_string (col p) ++ to_string (wrap32 (row p + 1)).

(** The numbers a reference denotes, without any bound: the column counted
    from 1 and the row. *)
Definition column_number (letters : chars) : Z :=
  fold_left (λ acc c, acc * 26 + default 0 (letter_value c)) letters 0.
Definition row_number (digits : chars) : Z :=
  fold_left (λ acc c, acc * 10 + digit_value c) digits 0.

(** Upper-case letters, the column letters of a reference in normal form. *)
Definition is_upper (c : ascii) : bool := (65 <=? code c) && (code c <=? 90).

(** The shape of a reference: column letters, then a decimal row without a
    leading zero. *)
Definition letters_ok (letters : chars) : Prop :=
  letters ≠ [] ∧ Forall (λ c, is_letter c = true) letters.

Definition no_leading_zero (digits : chars) : Prop :=
  match digits with
  | [] => True
  | d :: _ => d ≠ "0"%char
  end.

Definition digits_ok (digits : chars) : Prop :=
  digits ≠ [] ∧ Forall (λ c, is_digit c = true) digits ∧ no_leading_zero digits.

Definition chars_of (s : string) : chars := String.list_ascii_of_string s.

End TablePosition.

(** ** The metadata behind a handle *)

Module DocumentMeta.
Import Document.

Section Meta.
Context {Storage OpenDocument OfficeOpenXml : Type}.
Context `{odf : !DocumentApi Storage OpenDocument}.
Context `{ooxml : !DocumentApi Storage OfficeOpenXml}.

(** The metadata of a handle, asked of the document it wraps. *)
Definition document_meta (i : @Impl Storage OpenDocument OfficeOpenXml)
  : outcome FileMeta :=
  match i with
  | Base m => Returned m
  | Odf o => getMeta (od_document_ o)
  | Ooxml o => getMeta (ox_document_ o)
  end.

End Meta.
End DocumentMeta.

(** ** What a translation adds to the stream *)

Module Emission.
Import StyleTranslator ContentTranslator.

(** A state with the given context, nothing written and nothing logged. *)
Definition blank_state (c : Context) : State :=
  {| out := ""; context := c; glog := [] |}.

(** What the translation of an element, or of a list of children, writes and
    logs under a context. *)
Definition emitted (e : XMLElement) (c : Context) : string :=
  out (translate e (blank_state c)).
Definition logged (e : XMLElement) (c : Context) : list (severity * string) :=
  glog (translate e (blank_state c)).
Definition emitted_children (cs : list XMLNode) (c : Context) : string :=
  out (translate_children cs (blank_state c)).
Definition logged_children (cs : list XMLNode) (c : Context)
  : list (severity * string) :=
  glog (translate_children cs (blank_state c)).

(** A function on states that leaves the context and only appends to the
    stream and to the log, by amounts the context decides. *)
Definition writer (f : State → State) : Prop :=
  ∀ c : Context, ∃ (o : string) (l : list (severity * string)),
    ∀ st : State, context st = c →
      f st = {| out := out st +:+ o; context := c; glog := glog st ++ l |}.


(** The attributes a renaming translator adds, as they are written. *)
Definition new_attributes_text (newAttributes : list (string * string)) : string :=
  foldr (λ a acc, (" " +:+ a.1 +:+ "=" +:+ dq +:+ a.2 +:+ dq) +:+ acc) ""
        newAttributes.

(** The record logged for an attribute the table of a translator lacks. *)
Definition unhandled_attribute (in_ : XMLElement) (a : XMLAttribute)
  : severity * string :=
  (WARNING, "unhandled attribute: " +:+ Name in_ +:+ " " +:+ attr_Name a).

(** The texts among a list of children, one after the other. *)
Fixpoint texts (cs : list XMLNode) : string :=
  match cs with
  | [] => ""
  | NText value :: rest => value +:+ texts rest
  | _ :: rest => texts rest
  end.

Definition is_element (n : XMLNode) : bool :=
  match n with
  | NElement _ => true
  | _ => false
  end.

(** The start of an anchor for a bookmark and for a link, as one piece. *)
Definition bookmark_start (id : option XMLAttribute) (st : State) : State :=
  match id with
  | Some id => write ("<a id=" +:+ dq +:+ Value id +:+ dq +:+ ">") st
  | None => LOG WARNING "empty bookmark" (write "<a>" st)
  end.

Definition link_start (href : option XMLAttribute) (st : State) : State :=
  match href with
  | Some href =>
      write ("<a href" +:+ dq +:+ Value href +:+ dq
             +:+ (if starts_with_hash (Value href)
                  then " target" +:+ dq +:+ "_self" +:+ dq else "")
             +:+ ">") st
  | None => LOG WARNING "empty link" (write "<a>" st)
  end.


(** What [StylePropertiesTranslator] writes for an attribute. *)
Definition property_css (a : XMLAttribute) : string :=
  match substitution !! attr_Name a with
  | Some css => css +:+ ":" +:+ Value a +:+ ";"
  | None =>
      if decide (attr_Name a = "style:text-underline-style") then
        if decide (Value a = "solid") then "text-decoration:underline;" else ""
      else if decide (attr_Name a = "style:text-line-through-style") then
        if decide (Value a = "solid") then "text-decoration:line-through;" else ""
      else ""
  end.

(** The declarations of a style: the attributes of its element children, in
    document order. *)
Definition declarations (in_ : XMLElement) : string :=
  foldr (λ n acc,
           match n with
           | NElement c => foldr (λ a acc, property_css a +:+ acc) acc (attributes c)
           | _ => acc
           end) "" (children in_).

(** The entries a style element asks for: its parent style, then its
    family, escaped. *)
Definition recorded (in_ : XMLElement) : list string :=
  option_list (escapeStyleName <$> QueryStringAttribute in_ "style:parent-style-name")
  ++ option_list (escapeStyleName <$> QueryStringAttribute in_ "style:family").

Definition escape_char (c : ascii) : ascii :=
  if decide (c = "."%char) then "_"%char else c.

Fixpoint map_chars (f : ascii → ascii) (s : string) : string :=
  match s with
  | EmptyString => EmptyString
  | String c rest => String (f c) (map_chars f rest)
  end.

Definition dependencies (st : State) (name : string) : list string :=
  default [] (styleDependencies (context st) !! name).

End Emission.

(** ** Digests and key derivation of CryptoUtil.cpp *)

Module CryptoUtilDigests.
Import CryptoUtil.

(** The two digests the file computes. *)
Inductive digest : Type := SHA1 | SHA256.

(** [CryptoPP::SHA1::DIGESTSIZE] and [CryptoPP::SHA256::DIGESTSIZE]. *)
Definition DIGESTSIZE (h : digest) : nat :=
  match h with
  | SHA1 => 20
  | SHA256 => 32
  end.

(** The rest of Crypto++ the file calls: [CalculateDigest] and
    [PKCS5_PBKDF2_HMAC<SHA1>::DeriveKey], each by the bytes it writes to the
    buffer it is handed. *)
Class CryptoPPHash : Type := {
  CalculateDigest : digest → bytes → bytes;
  DeriveKey : nat → bytes → bytes → nat → bytes;
}.

Section Digests.
Context `{!CryptoPPHash}.

(** [byte out[DIGESTSIZE]] is not initialised: [garbage] is what the array
    holds before the call. *)
Definition calculate (h : digest) (garbage in_ : bytes) : bytes :=
  let out := take (DIGESTSIZE h) (garbage ++ zeroed (DIGESTSIZE h)) in
  store out (CalculateDigest h in_) (DIGESTSIZE h).

Definition sha1 (garbage in_ : bytes) : bytes := calculate SHA1 garbage in_.
Definition sha256 (garbage in_ : bytes) : bytes := calculate SHA256 garbage in_.

Definition pbkdf2 (keySize : nat) (startKey salt : bytes) (iterationCount : nat)
  : bytes :=
  let result := zeroed keySize in
  store result (DeriveKey keySize startKey salt iterationCount) keySize.

End Digests.

End CryptoUtilDigests.

(** * Concrete collaborators and sample documents *)

(** ** A small world of files, documents and keys *)

Module Fixture.
Import Document.

(** A storage is the list of its streams, name and content. *)
Abbreviation Storage := (list (string * string)).

Definition lookup_stream (s : Storage) (name : string) : option string :=
  (λ found, found.2.2) <$> list_find (λ e, e.1 = name) s.

Definition report_odt : Storage := [("mimetype", "odf"); ("content.xml", "<p/>")].
Definition letter_docx : Storage := [("[Content_Types].xml", "ooxml")].
Definition notes_zip : Storage := [("notes.txt", "hello")].
Definition legacy_doc : Storage := [("WordDocument", "w"); ("Workbook", "x")].
Definition slides_ppt : Storage := [("PowerPoint Document", "p"); ("Workbook", "x")].
Definition secret_docx : Storage :=
  [("EncryptionInfo", "sesame"); ("EncryptedPackage", "ciphertext")].

#[export] Instance files : StorageApi Storage := {|
  ZipReader path :=
    if decide (path = "report.odt") then Returned report_odt
    else if decide (path = "letter.docx") then Returned letter_docx
    else if decide (path = "notes.zip") then Returned notes_zip
    else Thrown NoZipFileException;
  ZipReader_memory data := Returned [("[Content_Types].xml", data)];
  CfbReader path :=
    if decide (path = "legacy.doc") then Returned legacy_doc
    else if decide (path = "slides.ppt") then Returned slides_ppt
    else if decide (path = "secret.docx") then Returned secret_docx
    else Thrown NoCfbFileException;
  isFile s name := bool_decide (is_Some (lookup_stream s name));
  storage_read s name :=
    match lookup_stream s name with
    | Some data => Returned data
    | None => Thrown OtherException
    end;
|}.

(** Two document classes that recognise a package by one stream each. *)
Record OpenDocument : Type := mkOpenDocument { odf_storage : Storage }.
Record OfficeOpenXml : Type := mkOfficeOpenXml { ooxml_storage : Storage }.

Definition meta_of (t : FileType) (s : Storage) : FileMeta :=
  {| type := t; encrypted := false; entries := s.*1 |}.

#[export] Instance odf_api : DocumentApi Storage OpenDocument := {|
  doc_new s :=
    if isFile s "mimetype" then Returned (mkOpenDocument s)
    else Thrown OtherException;
  getMeta d := Returned (meta_of OPENDOCUMENT_TEXT (odf_storage d));
  isDecrypted d := Returned false;
  canHtml d := Returned true;
  doc_canEdit d := Thrown OtherException;
  doc_canSave d := Returned false;
  doc_canSave_encrypted d enc := Returned false;
  doc_decrypt d password := (Returned false, d);
  html d path config := (Thrown OtherException, d);
  doc_edit d diff := (Returned false, d);
  doc_save d path := Returned false;
  doc_save_password d path password := Thrown OtherException;
|}.

#[export] Instance ooxml_api : DocumentApi Storage OfficeOpenXml := {|
  doc_new s :=
    if isFile s "[Content_Types].xml" || isFile s "EncryptionInfo"
    then Returned (mkOfficeOpenXml s)
    else Thrown OtherException;
  getMeta d := Returned (meta_of OFFICE_OPEN_XML (ooxml_storage d));
  isDecrypted d := Returned false;
  canHtml d := Returned true;
  doc_canEdit d := Returned false;
  doc_canSave d := Returned false;
  doc_canSave_encrypted d enc := Returned false;
  doc_decrypt d password := (Thrown OtherException, d);
  html d path config := (Returned true, d);
  doc_edit d diff := (Returned false, d);
  doc_save d path := Returned false;
  doc_save_password d path password := Returned false;
|}.

(** A crypto utility whose key is the password and whose verifier is the
    content of the [EncryptionInfo] stream. *)
Record Util : Type := mkUtil { verifier : string }.

#[export] Instance cfb_crypto : CfbCryptoApi Util := {|
  Util_new info := Returned (mkUtil info);
  deriveKey u password := Returned password;
  verify u key := Returned (bool_decide (key = verifier u));
  Util_decrypt u package key := Returned ("plain:" +:+ package);
|}.

(** The document class of the fixture takes the storage it is built from:
    the pointer it was handed is null afterwards. *)
#[export] Instance ooxml_constructor : ConstructorApi Storage OfficeOpenXml := {|
  after_construction s r := None;
|}.

End Fixture.

(** ** Sample documents and a toy cipher *)

Module Samples.
Import StyleTranslator ContentTranslator CryptoUtil.

(** A named style with a parent, a family and one property. *)
Definition heading_2 : XMLElement :=
  mkElement "style:style"
    [mkAttribute "style:name" "Heading.2";
     mkAttribute "style:parent-style-name" "Heading.1";
     mkAttribute "style:family" "Text"]
    [NElement (mkElement "style:text-properties"
                 [mkAttribute "fo:font-size" "14pt"] [])].

(** A style S2 with parent S1 and family Text. *)
Definition style_S2 : XMLElement :=
  mkElement "style:style"
    [mkAttribute "style:name" "S2";
     mkAttribute "style:parent-style-name" "S1";
     mkAttribute "style:family" "Text"] [].

(** The state the style resolver leaves for it, with an empty stream. *)
Definition resolved_S2 : State :=
  with_out "" (StyleClassTranslator style_S2 empty_state).

(** A toy decryptor: the key must have 16 bytes and the IV 8, and the bytes
    written are the input with the IV in front, which is longer than the
    buffer. *)
Record ToyDecryption : Type := mkToy { toy_key : bytes; toy_iv : bytes }.

#[export] Instance toy_cryptopp : CryptoPP ToyDecryption := {|
  SetKey c key :=
    if decide (length key = 16%nat) then Returned (mkToy key [])
    else Thrown OtherException;
  SetKeyWithIV c key iv :=
    if decide (length key = 16%nat ∧ length iv = 8%nat) then Returned (mkToy key iv)
    else Thrown OtherException;
  ProcessData d input := toy_iv d ++ input;
|}.

Definition toy_key16 : bytes := replicate 16 Byte.x2a.
Definition toy_iv8 : bytes := replicate 8 Byte.x07.
Definition toy_input : bytes := [Byte.x01; Byte.x02; Byte.x03].

End Samples.

(** ** A disk that cannot be read *)

Module Faulty.
Import Document.

(** A disk whose every read fails with an exception of its own, and a
    document class that is never built. *)
Inductive disk : Type := Disk.

#[export] Instance unreadable : StorageApi disk := {|
  ZipReader path := Thrown OtherException;
  ZipReader_memory data := Thrown OtherException;
  CfbReader path := Thrown OtherException;
  isFile s name := false;
  storage_read s name := Thrown OtherException;
|}.

#[export] Instance no_document : DocumentApi disk unit := {|
  doc_new s := Thrown OtherException;
  getMeta d := Thrown OtherException;
  isDecrypted d := Thrown OtherException;
  canHtml d := Thrown OtherException;
  doc_canEdit d := Thrown OtherException;
  doc_canSave d := Thrown OtherException;
  doc_canSave_encrypted d enc := Thrown OtherException;
  doc_decrypt d password := (Thrown OtherException, d);
  html d path config := (Thrown OtherException, d);
  doc_edit d diff := (Thrown OtherException, d);
  doc_save d path := Thrown OtherException;
  doc_save_password d path password := Thrown OtherException;
|}.

End Faulty.

(** * Properties *)

(** ** Properties of odr/src/Document.cpp *)

Module DocumentProperties.
Import Document.

Lemma try_catch_all_value {A} (c : outcome A) (d : A) :
  try_catch_all c (Returned d) =
  Returned (match c with Returned a => a | Thrown _ => d end).
Proof. by destruct c. Qed.

Section Properties.
Context {Storage OpenDocument OfficeOpenXml Util : Type}.
Context `{!StorageApi Storage}.
Context `{odf : !DocumentApi Storage OpenDocument}.
Context `{ooxml : !DocumentApi Storage OfficeOpenXml}.
Context `{!CfbCryptoApi Util}.
Context `{!ConstructorApi Storage OfficeOpenXml}.

(** The classes at the types of this section. *)
Abbreviation Impl' := (@Impl Storage OpenDocument OfficeOpenXml).
Abbreviation Document' := (@Document Storage OpenDocument OfficeOpenXml).
Abbreviation OfficeOpenXmlImpl' := (@OfficeOpenXmlImpl Storage OfficeOpenXml).

Lemma attempt_returned (c : outcome Impl') (i : Impl') :
  c = Returned i → attempt c = Returned (Some i).
Proof. by intros ->. Qed.

Lemma attempt_thrown (c : outcome Impl') :
  throws c → attempt c = Returned None.
Proof. by intros [e ->]. Qed.

Lemma zip_declines_falls_through path :
  zip_declines (OpenDocument := OpenDocument) (OfficeOpenXml := OfficeOpenXml) path →
  try_catch NoZipFileException (zip_block path) (Returned None)
    = Returned (None : option Impl').
Proof.
  unfold zip_block. intros [-> | (storage & -> & Hodf & Hooxml)]; [done |].
  simpl. rewrite (attempt_thrown _ Hodf). simpl.
  by rewrite (attempt_thrown _ Hooxml).
Qed.

(** What the body of [OfficeOpenXmlImpl::decrypt_] does on an object whose
    [storage_] is set: when the key derived from the password does not
    verify, it returns false after reading and parsing [EncryptionInfo],
    deriving the key and verifying it, the object is what it was, and neither
    a read of [EncryptedPackage] nor a bulk decryption is among the calls
    made. No constructor of the class sets [storage_]. *)
Lemma decrypt__when_storage_is_set (self : OfficeOpenXmlImpl') (trace : list event)
    (password : string) (storage : Storage) (info : string) (util : Util)
    (key : string) :
  ox_storage_ self = Some storage →
  storage_read storage "EncryptionInfo" = Returned info →
  Util_new info = Returned util →
  deriveKey util password = Returned key →
  verify util key = Returned false →
  decrypt_ password (self, trace)
    = Some (Returned false, (self, trace ++ wrong_password_calls))
  ∧ (ReadStream "EncryptedPackage" ∉ wrong_password_calls)
  ∧ (BulkDecrypt ∉ wrong_password_calls)
  ∧ (OpenPackage ∉ wrong_password_calls).
Proof.
  intros Hst Hread Hnew Hkey Hverify. split.
  - unfold decrypt_, mbind, method_bind, deref_storage_, call. simpl.
    rewrite Hst. simpl. rewrite Hread, Hnew, Hkey, Hverify. simpl.
    unfold mret, method_ret, wrong_password_calls.
    by rewrite <- !(assoc_L (++)).
  - unfold wrong_password_calls. rewrite !elem_of_cons, !elem_of_nil.
    repeat split; intros Hin; decompose [or] Hin; discriminate || done.
Qed.

(** C6. Every operation of the facade returns: it yields what the wrapped
    call returned, and the fallback of its catch handler (false, UNKNOWN, a
    null document) when the wrapped call threw. *)
Theorem facade_never_throws (d : Document') (path password config diff : string)
    (enc : bool) (as_ : FileType) :
  Document_canTranslate d = Returned (or_else (Impl_canTranslate (impl_ d)) false)
  ∧ Document_canEdit d = Returned (or_else (Impl_canEdit (impl_ d)) false)
  ∧ Document_canSave d
      = Returned (or_else (Impl_canSave_encrypted (impl_ d) false) false)
  ∧ Document_canSave_encrypted d enc
      = Returned (or_else (Impl_canSave_encrypted (impl_ d) enc) false)
  ∧ Document_decrypted d = Returned (or_else (Impl_decrypted (impl_ d)) false)
  ∧ Document_encrypted d = Returned (encrypted (meta_ (impl_ d)))
  ∧ Document_type d = Returned (type (meta_ (impl_ d)))
  ∧ Document_open path
      = Returned (or_else (Some <$> (mkDocument <$> openImpl path))
                          (None : option Document'))
  ∧ Document_open_as path as_ = Returned (None : option Document')
  ∧ Document_readType (OpenDocument := OpenDocument)
                      (OfficeOpenXml := OfficeOpenXml) path
      = Returned (or_else (type <$> (meta_ <$> (openImpl path : outcome Impl')))
                          UNKNOWN)
  ∧ (Document_decrypt d password).1
      = Returned (or_else (Impl_decrypt (impl_ d) password).1 false)
  ∧ (Document_translate d path config).1
      = Returned (or_else (Impl_translate (impl_ d) path config).1 false)
  ∧ (Document_edit d diff).1
      = Returned (or_else (Impl_edit (impl_ d) diff).1 false)
  ∧ Document_save d path = Returned (or_else (Impl_save (impl_ d) path) false)
  ∧ Document_save_password d path password
      = Returned (or_else (Impl_save_password (impl_ d) path password) false).
Proof.
  unfold Document_canTranslate, Document_canEdit, Document_canSave,
    Document_canSave_encrypted, Document_decrypted, Document_encrypted,
    Document_type, Document_open, Document_open_as, Document_readType,
    Document_decrypt, Document_translate, Document_edit, Document_save,
    Document_save_password, or_else.
  repeat split; try apply try_catch_all_value; try done.
  - destruct (openImpl path : outcome Impl'); reflexivity.
  - destruct (openImpl path : outcome Impl'); reflexivity.
  - destruct (Impl_decrypt _ _) as [r i]. apply try_catch_all_value.
  - destruct (Impl_translate _ _ _) as [r i]. apply try_catch_all_value.
  - destruct (Impl_edit _ _) as [r i]. apply try_catch_all_value.
Qed.

(** C9. [openImpl] tries the ZIP reader first, and on a ZIP archive the
    OpenDocument class before the Office Open XML class; when the ZIP sniffers
    decline it tries the CFB reader, where the first of the streams
    WordDocument, PowerPoint Document and Workbook that is present decides
    the legacy type, in that order, and a container with none of them is
    offered to the Office Open XML class; when nothing accepts the file the
    exception is UnknownFileType. *)
Theorem openImpl_priority (path : string) :
  (∀ (storage : Storage) (i : Impl'),
     ZipReader path = Returned storage →
     OpenDocumentImpl_new storage = Returned i →
     openImpl path = Returned i)
  ∧ (∀ (storage : Storage) (i : Impl'),
     ZipReader path = Returned storage →
     throws (OpenDocumentImpl_new storage : outcome Impl') →
     OfficeOpenXmlImpl_new storage = Returned i →
     openImpl path = Returned i)
  ∧ (∀ storage : Storage,
     zip_declines (OpenDocument := OpenDocument) (OfficeOpenXml := OfficeOpenXml)
                  path →
     CfbReader path = Returned storage →
     openImpl path =
       if isFile storage "WordDocument"
       then Returned (Base {| type := LEGACY_WORD_DOCUMENT; encrypted := false;
                              entries := [] |})
       else if isFile storage "PowerPoint Document"
       then Returned (Base {| type := LEGACY_POWERPOINT_PRESENTATION; encrypted := false;
                              entries := [] |})
       else if isFile storage "Workbook"
       then Returned (Base {| type := LEGACY_EXCEL_WORKSHEETS; encrypted := false;
                              entries := [] |})
       else match OfficeOpenXmlImpl_new storage with
            | Returned i => Returned (i : Impl')
            | Thrown _ => Thrown UnknownFileType
            end)
  ∧ (zip_declines (OpenDocument := OpenDocument) (OfficeOpenXml := OfficeOpenXml)
                   path →
     CfbReader path = Thrown NoCfbFileException →
     openImpl path = (Thrown UnknownFileType : outcome Impl')).
Proof.
  repeat split.
  - intros storage i Hzip Hodf. unfold openImpl, zip_block.
    rewrite Hzip. simpl. by rewrite (attempt_returned _ _ Hodf).
  - intros storage i Hzip Hodf Hooxml. unfold openImpl, zip_block.
    rewrite Hzip. simpl. rewrite (attempt_thrown _ Hodf). simpl.
    by rewrite (attempt_returned _ _ Hooxml).
  - intros storage Hzip Hcfb. unfold openImpl.
    rewrite (zip_declines_falls_through _ Hzip). simpl.
    unfold cfb_block. rewrite Hcfb. simpl.
    destruct (isFile storage "WordDocument"); [done |].
    destruct (isFile storage "PowerPoint Document"); [done |].
    destruct (isFile storage "Workbook"); [done |].
    by destruct (OfficeOpenXmlImpl_new storage).
  - intros Hzip Hcfb. unfold openImpl.
    rewrite (zip_declines_falls_through _ Hzip). simpl.
    unfold cfb_block. by rewrite Hcfb.
Qed.

End Properties.

Import (hints) Fixture.


(** C9 on the files of the fixture: a ZIP archive both classes refuse is
    passed on, and of two legacy streams the one checked first decides. *)
Lemma openImpl_priority_witness :
  openImpl "report.odt"
    = Returned (Odf {| od_meta_ := Fixture.meta_of OPENDOCUMENT_TEXT Fixture.report_odt;
                       od_document_ := Fixture.mkOpenDocument Fixture.report_odt |})
  ∧ openImpl (OpenDocument := Fixture.OpenDocument)
             (OfficeOpenXml := Fixture.OfficeOpenXml) "legacy.doc"
    = Returned (Base {| type := LEGACY_WORD_DOCUMENT; encrypted := false;
                        entries := [] |})
  ∧ openImpl (OpenDocument := Fixture.OpenDocument)
             (OfficeOpenXml := Fixture.OfficeOpenXml) "slides.ppt"
    = Returned (Base {| type := LEGACY_POWERPOINT_PRESENTATION; encrypted := false;
                        entries := [] |})
  ∧ openImpl (OpenDocument := Fixture.OpenDocument)
             (OfficeOpenXml := Fixture.OfficeOpenXml) "notes.zip"
    = Thrown UnknownFileType.
Proof.
  split; [| split; [| split]].
  - apply (proj1 (openImpl_priority "report.odt") Fixture.report_odt); reflexivity.
  - etrans.
    + apply (proj1 (proj2 (proj2 (openImpl_priority "legacy.doc"))) Fixture.legacy_doc);
        [left | ]; reflexivity.
    + reflexivity.
  - etrans.
    + apply (proj1 (proj2 (proj2 (openImpl_priority "slides.ppt"))) Fixture.slides_ppt);
        [left | ]; reflexivity.
    + reflexivity.
  - apply (proj2 (proj2 (proj2 (openImpl_priority "notes.zip")))); [| reflexivity].
    right. exists Fixture.notes_zip.
    split; [reflexivity | split; exists OtherException; reflexivity].
Defined.

End DocumentProperties.

(** ** Properties of the style and content translators *)

Module TranslatorProperties.
Import StyleTranslator ContentTranslator Samples.

(** *** Streams *)

Lemma app_cons (x : ascii) (a b : string) :
  String x a +:+ b = String x (a +:+ b).
Proof. reflexivity. Qed.

Lemma app_assoc (a b c : string) : (a +:+ b) +:+ c = a +:+ b +:+ c.
Proof. induction a as [|x a IH]; [done | by rewrite !app_cons, IH]. Qed.

Lemma app_nil_r (a : string) : a +:+ "" = a.
Proof. induction a as [|x a IH]; [done | by rewrite app_cons, IH]. Qed.

Lemma write_fold {A} (f : A → string) (l : list A) (st : State) :
  fold_left (λ st i, write (f i) st) l st
  = write (foldr (λ a acc, f a +:+ acc) "" l) st.
Proof.
  revert st. induction l as [|a l IH]; intros st; cbn.
  - unfold write. by rewrite app_nil_r; destruct st.
  - rewrite IH. unfold write; cbn. by rewrite app_assoc.
Qed.

Lemma spaces_snoc (n : nat) : spaces n +:+ " " = " " +:+ spaces n.
Proof.
  induction n as [|n IH]; [done |].
  change (spaces (S n)) with (" " +:+ spaces n).
  by rewrite app_assoc, IH.
Qed.

Lemma write_spaces_eq (count : Z) (st : State) :
  write_spaces count st = write (spaces (Z.to_nat count)) st.
Proof.
  unfold write_spaces. induction (Z.to_nat count) as [|n IH].
  - unfold write; cbn. by rewrite app_nil_r; destruct st.
  - change (Nat.iter (S n) (write " ") st)
      with (write " " (Nat.iter n (write " ") st)).
    rewrite IH. unfold write; cbn [out context glog]. f_equal.
    rewrite app_assoc. f_equal. apply spaces_snoc.
Qed.

(** *** The style resolver leaves the map alone once the entries are in *)

Lemma context_StylePropertiesTranslator a st :
  context (StylePropertiesTranslator a st) = context st.
Proof.
  unfold StylePropertiesTranslator.
  destruct (substitution !! attr_Name a); [done |].
  repeat case_decide; done.
Qed.

Lemma context_visitElementAttributes e st :
  context (visitElementAttributes e StylePropertiesTranslator st) = context st.
Proof.
  unfold visitElementAttributes. revert st.
  induction (attributes e) as [|a l IH]; intros st; cbn; [done |].
  by rewrite IH, context_StylePropertiesTranslator.
Qed.

Lemma context_visit_properties e st :
  context (visitElementChildren e
             (λ c, visitElementAttributes c StylePropertiesTranslator) st)
  = context st.
Proof.
  unfold visitElementChildren. revert st.
  induction (children e) as [|n l IH]; intros st; cbn; [done |].
  rewrite IH. destruct n; [done | done |]. apply context_visitElementAttributes.
Qed.

Lemma push_dependency_lookup name dep st :
  styleDependencies (context (push_dependency name dep st)) !! name
  = Some (default [] (styleDependencies (context st) !! name) ++ [dep]).
Proof. unfold push_dependency; cbn. apply lookup_insert_eq. Qed.

(** What [StyleClassTranslator] does to the entries of a named style: the
    parent and the family are appended, in that order, to the entries that
    are already there. *)
Lemma StyleClassTranslator_appends (in_ : XMLElement) (st : State)
    (S2 S1 family : string) :
  Name in_ = "style:style" →
  QueryStringAttribute in_ "style:name" = Some S2 →
  QueryStringAttribute in_ "style:parent-style-name" = Some S1 →
  QueryStringAttribute in_ "style:family" = Some family →
  styleDependencies (context (StyleClassTranslator in_ st)) !! escapeStyleName S2
  = Some (default [] (styleDependencies (context st) !! escapeStyleName S2)
          ++ [escapeStyleName S1; escapeStyleName family]).
Proof.
  intros Hname Hq Hparent Hfamily. unfold StyleClassTranslator.
  rewrite Hname.
  change (elementToNameAttr !! "style:style") with (Some "style:name").
  cbv beta iota. unfold QueryStringAttribute in Hq.
  destruct (FindAttribute in_ "style:name") as [nameAttr|]; [| done].
  injection Hq as ->. rewrite Hparent, Hfamily. cbv beta iota zeta.
  cbn [context write]. rewrite context_visit_properties. cbn [context write].
  rewrite !push_dependency_lookup. cbn. by rewrite <- (assoc_L (++)).
Qed.

(** *** [StyleAttributeTranslator] *)

Lemma write_nil (st : State) : write "" st = st.
Proof. unfold write. rewrite app_nil_r. by destruct st. Qed.

Lemma join_classes_fold (l : list string) (name tail : string) :
  foldr (λ a acc, (a +:+ " ") +:+ acc) "" l +:+ name +:+ tail
  = join_classes l name +:+ tail.
Proof.
  induction l as [|a l IH]; cbn [foldr join_classes]; [done |].
  by rewrite !app_assoc, IH.
Qed.

(** Every renaming entry of the element table hands [text:style-name] and
    [table:style-name] to the [StyleAttributeTranslator], after a blank. *)
Lemma style_name_attributes_resolved (name : string) (t : option ElementTranslator) :
  elementTranslator !! name = Some t → resolves_style_names t = true.
Proof.
  intros H. apply elem_of_map_to_list, list_elem_of_In in H.
  assert (HF : forallb (λ kv, resolves_style_names kv.2)
                       (map_to_list elementTranslator) = true)
    by (vm_compute; reflexivity).
  rewrite forallb_forall in HF. apply (HF (name, t) H).
Qed.

Lemma translate_attribute_style (in_ : XMLElement)
    (attributeTranslator : gmap string (option AttributeTranslator))
    (st : State) (attr : XMLAttribute) :
  attributeTranslator !! attr_Name attr = Some (Some StyleAttributeTranslator) →
  translate_attribute in_ attributeTranslator st attr
  = AttributeTranslator_translate StyleAttributeTranslator attr (write " " st).
Proof. intros H. unfold translate_attribute. by rewrite H. Qed.

Example paragraph_class :
  out (translate (mkElement "text:p" [mkAttribute "text:style-name" "S2"]
                            [NText "hello"]) resolved_S2)
  = "<p class=" +:+ dq +:+ "Text S1 S2" +:+ dq +:+ ">hello</p>".
Proof. reflexivity. Qed.

(** The resolver files a dotted name under its escaped form, and the
    attribute translator looks the name up as it is written. *)
Example dotted_style_name :
  styleDependencies (context (StyleClassTranslator heading_2 empty_state))
    !! "Heading_2" = Some ["Heading_1"; "Text"]
  ∧ AttributeTranslator_translate StyleAttributeTranslator
      (mkAttribute "text:style-name" "Heading.2")
      (with_out "" (StyleClassTranslator heading_2 empty_state))
    = LOG WARNING "unknown style: Heading.2"
        (with_out "" (StyleClassTranslator heading_2 empty_state)).
Proof. split; reflexivity. Qed.

(** *** [DefaultContentTranslatorImpl::translate] *)

(** One step of [translate], with the loop over the children by name. *)
Lemma translate_eq (name : string) (attrs : list XMLAttribute)
    (children : list XMLNode) (st : State) :
  translate (mkElement name attrs children) st =
  let in_ := mkElement name attrs children in
  let found := elementTranslator !! name in
  let st := match found with
            | Some _ => st
            | None => LOG WARNING ("unhandled element: " +:+ name) st
            end in
  let translator := found ≫= id in
  let st := match translator with
            | Some t => translateStart t in_ st
            | None => st
            end in
  let st := translate_children children st in
  match translator with
  | Some t => translateEnd t in_ st
  | None => st
  end.
Proof.
  cbv zeta.
  assert (Hloop : ∀ cs s, translate_children cs s =
    (fix loop (cs : list XMLNode) (st : State) {struct cs} : State :=
       match cs with
       | [] => st
       | child :: rest =>
           loop rest
             match child with
             | NText value => write value st
             | NElement e => translate e st
             | NComment _ => st
             end
       end) cs s).
  { induction cs as [|c cs IH]; intros s; [done |]. apply IH. }
  rewrite !Hloop. reflexivity.
Qed.

Lemma lookup_text_s : elementTranslator !! "text:s" = Some (Some SpaceTranslator).
Proof. reflexivity. Qed.

(** C3. An element whose name the table lacks and whose only child is a
    text writes the text and nothing else, and logs one warning; with any
    children, it writes what its children write, without a tag around it. *)
Theorem unknown_element_passthrough (name : string) (attrs : list XMLAttribute)
    (value : string) (st : State) :
  elementTranslator !! name = None →
  translate (mkElement name attrs [NText value]) st
  = {| out := out st +:+ value;
       context := context st;
       glog := glog st ++ [(WARNING, "unhandled element: " +:+ name)] |}
  ∧ ∀ children : list XMLNode,
      translate (mkElement name attrs children) st
      = translate_children children
          (LOG WARNING ("unhandled element: " +:+ name) st).
Proof.
  intros Hnone. split; [| intros children]; rewrite translate_eq; cbv zeta;
    rewrite Hnone; reflexivity.
Qed.

Lemma unknown_element_passthrough_witness :
  translate (mkElement "draw:frame" [mkAttribute "draw:name" "f"] [NText "caption"])
            empty_state
  = {| out := out empty_state +:+ "caption";
       context := context empty_state;
       glog := glog empty_state ++ [(WARNING, "unhandled element: " +:+ "draw:frame")] |}
  ∧ ∀ children : list XMLNode,
      translate (mkElement "draw:frame" [mkAttribute "draw:name" "f"] children)
                empty_state
      = translate_children children
          (LOG WARNING ("unhandled element: " +:+ "draw:frame") empty_state).
Proof.
  apply (unknown_element_passthrough "draw:frame" [mkAttribute "draw:name" "f"]
           "caption" empty_state).
  reflexivity.
Defined.

(** C4, as the code has it. A [text:s] element writes as many blanks as its
    [text:c] attribute says when that is a positive number, and none when the
    attribute is missing, is no number, or is zero or negative; its children
    are then translated like those of any element. *)
Theorem space_run (attrs : list XMLAttribute) (children : list XMLNode)
    (st : State) :
  translate (mkElement "text:s" attrs children) st
  = translate_children children
      (write (spaces (Z.to_nat (Int64Attribute (mkElement "text:s" attrs children)
                                               "text:c" (-1)))) st)
  ∧ (QueryInt64Attribute (mkElement "text:s" attrs children) "text:c" = None →
     translate (mkElement "text:s" attrs children) st
     = translate_children children st)
  ∧ (∀ count : Z,
     QueryInt64Attribute (mkElement "text:s" attrs children) "text:c" = Some count →
     count <= 0 →
     translate (mkElement "text:s" attrs children) st
     = translate_children children st).
Proof.
  assert (Hstep : ∀ count,
    Int64Attribute (mkElement "text:s" attrs children) "text:c" (-1) = count →
    translate (mkElement "text:s" attrs children) st
    = translate_children children (write (spaces (Z.to_nat count)) st)).
  { intros count Hcount. rewrite translate_eq. cbv zeta.
    rewrite lookup_text_s. cbn [mbind option_bind id translateStart translateEnd].
    rewrite Hcount. destruct (Z.leb_spec count 0) as [Hle | Hgt].
    - replace (Z.to_nat count) with O by lia. by rewrite write_nil.
    - by rewrite write_spaces_eq. }
  split; [by apply Hstep | split].
  - intros Hnone. rewrite (Hstep (-1)).
    + by rewrite write_nil.
    + unfold Int64Attribute. by rewrite Hnone.
  - intros count Hsome Hle. rewrite (Hstep count).
    + replace (Z.to_nat count) with O by lia. by rewrite write_nil.
    + unfold Int64Attribute. by rewrite Hsome.
Qed.

(** C4, as the claim has it, fails twice: without [text:c] no blank is
    written where the claim has one, and a text inside the element is
    written where the claim has the children left out. *)
Lemma space_run_counterexample :
  out (translate (mkElement "text:s" [] []) empty_state) = ""
  ∧ out (translate (mkElement "text:s" [mkAttribute "text:c" "many"] []) empty_state)
    = ""
  ∧ out (translate (mkElement "text:s" [mkAttribute "text:c" "2"] [NText "x"])
                   empty_state)
    = "  x"
  ∧ "" ≠ " " ∧ "  x" ≠ "  ".
Proof. repeat split; discriminate. Qed.

(** C5, the code at a link with a target: the anchor is opened and closed,
    and what stands between [href] and the value is a double quote alone,
    with no equals sign; so for [target]. Without the attribute the anchor is
    still opened and closed, and a warning is logged. *)
Theorem link_translation_omits_equals_sign :
  out (translate (mkElement "text:a" [mkAttribute "xlink:href" "http://example.org"]
                            [NText "x"]) empty_state)
  = "<a href" +:+ dq +:+ "http://example.org" +:+ dq +:+ ">x</a>"
  ∧ out (translate (mkElement "text:a" [mkAttribute "xlink:href" "#top"]
                              [NText "x"]) empty_state)
    = "<a href" +:+ dq +:+ "#top" +:+ dq +:+ " target" +:+ dq +:+ "_self" +:+ dq
        +:+ ">x</a>"
  ∧ translate (mkElement "text:a" [] [NText "x"]) empty_state
    = {| out := "<a>x</a>"; context := context empty_state;
         glog := [(WARNING, "empty link")] |}
  ∧ "<a href" +:+ dq +:+ "http://example.org" +:+ dq +:+ ">x</a>"
    ≠ "<a href=" +:+ dq +:+ "http://example.org" +:+ dq +:+ ">x</a>".
Proof. repeat split; discriminate. Qed.

End TranslatorProperties.

(** ** Properties of CryptoUtil.cpp *)

Module CryptoUtilProperties.
Import CryptoUtil Samples.

Lemma length_zeroed (n : nat) : length (zeroed n) = n.
Proof. apply length_replicate. Qed.

Lemma length_store (buffer written : bytes) (n : nat) :
  length (store buffer written n) = length buffer.
Proof.
  unfold store. rewrite length_app, length_drop, !length_take. lia.
Qed.

Section Properties.
Context {Decryption : Type} `{!CryptoPP Decryption}.

Lemma length_process (decryptor : Decryption) (input : bytes) :
  length (process decryptor input) = length input.
Proof. unfold process. by rewrite length_store, length_zeroed. Qed.

(** C10. With a key (and an IV) the cipher takes, each of the four decrypt
    functions returns, and what it returns has the length of its input to
    the byte, whatever the decryptor wrote; and a result, whenever there is
    one, has that length. *)
Theorem decrypt_keeps_length (key iv input : bytes) :
  (∀ d : Decryption, SetKeyWithIV CBC_AES key iv = Returned d →
     ∃ r, decryptAES key iv input = Returned r ∧ length r = length input)
  ∧ (∀ d : Decryption, SetKeyWithIV CBC_DES_EDE3 key iv = Returned d →
     ∃ r, decryptTripleDES key iv input = Returned r ∧ length r = length input)
  ∧ (∀ d : Decryption, SetKeyWithIV CFB_Blowfish key iv = Returned d →
     ∃ r, decryptBlowfish key iv input = Returned r ∧ length r = length input)
  ∧ (∀ d : Decryption, SetKey ECB_AES key = Returned d →
     ∃ r, decryptAES_ECB key input = Returned r ∧ length r = length input)
  ∧ (∀ r : bytes,
       decryptAES key iv input = Returned r
       ∨ decryptTripleDES key iv input = Returned r
       ∨ decryptBlowfish key iv input = Returned r
       ∨ decryptAES_ECB (Decryption := Decryption) key input = Returned r →
       length r = length input).
Proof.
  unfold decryptAES, decryptTripleDES, decryptBlowfish, decryptAES_ECB.
  split; [| split; [| split; [| split]]].
  1-4: intros d ->; eexists; split; [reflexivity | apply length_process].
  intros r [H | [H | [H | H]]];
    match type of H with
    | (?c ≫= _) = _ => destruct c as [d|e]; [| discriminate]
    end;
    injection H as <-; apply length_process.
Qed.

End Properties.

Lemma decrypt_keeps_length_witness :
  ∃ r, decryptAES toy_key16 toy_iv8 toy_input = Returned r
       ∧ length r = length toy_input.
Proof.
  apply (proj1 (decrypt_keeps_length toy_key16 toy_iv8 toy_input)
           (mkToy toy_key16 toy_iv8)).
  reflexivity.
Defined.

End CryptoUtilProperties.

(** ** Properties of TablePosition *)

Module TablePositionProperties.
Import TablePosition.

(** *** Characters *)

Lemma letter_value_spec (c : ascii) (v : Z) :
  letter_value c = Some v → 1 <= v <= 26 ∧ char_of (65 + (v - 1)) = toupper c.
Proof.
  destruct c as [[] [] [] [] [] [] [] []]; vm_compute;
    first [discriminate | intros [= <-]; repeat split; discriminate].
Qed.

Lemma digit_spec (c : ascii) :
  is_digit c = true →
  0 <= digit_value c <= 9 ∧ char_of (48 + digit_value c) = c
  ∧ is_letter c = false ∧ (c ≠ "0"%char → 1 <= digit_value c).
Proof.
  destruct c as [[] [] [] [] [] [] [] []]; vm_compute;
    first [discriminate | intros _; repeat split; try discriminate; try done].
Qed.

Lemma toupper_upper (c : ascii) : is_upper c = true → toupper c = c ∧ is_letter c = true.
Proof.
  destruct c as [[] [] [] [] [] [] [] []]; vm_compute;
    first [discriminate | done].
Qed.

Lemma is_letter_value (c : ascii) :
  is_letter c = true → ∃ v, letter_value c = Some v.
Proof. unfold is_letter. destruct (letter_value c); [eauto | done]. Qed.

Lemma wrap32_small (z : Z) : 0 <= z < 2 ^ 32 → wrap32 z = z.
Proof. intros. unfold wrap32. by apply Z.mod_small. Qed.

(** *** Columns *)

Lemma column_number_snoc (l : chars) (c : ascii) :
  column_number (l ++ [c]) = column_number l * 26 + default 0 (letter_value c).
Proof. unfold column_number. by rewrite fold_left_app. Qed.

Lemma column_number_bounds (l : chars) :
  Forall (λ c, is_letter c = true) l →
  2 ^ Z.of_nat (length l) <= column_number l + 1.
Proof.
  induction l as [|c l IH] using rev_ind; intros Hl; [done |].
  apply Forall_app in Hl as [Hl Hc]. apply Forall_inv in Hc.
  destruct (is_letter_value c Hc) as [v Hv].
  destruct (letter_value_spec c v Hv) as [Hrange _].
  rewrite column_number_snoc, Hv, length_app, Nat2Z.inj_add. cbn [length default from_option id].
  rewrite Z.pow_add_r by lia. specialize (IH Hl). change (2 ^ Z.of_nat 1) with 2.
  assert (0 < 2 ^ Z.of_nat (length l)) by (apply Z.pow_pos_nonneg; lia). lia.
Qed.

Lemma col_value_snoc (acc : Z) (l : chars) (c : ascii) :
  col_value acc (l ++ [c])
  = n ← col_value acc l; v ← letter_value c; Some (wrap32 (n * 26 + v)).
Proof.
  revert acc. induction l as [|x l IH]; intros acc; cbn.
  - by destruct (letter_value c).
  - destruct (letter_value x); cbn; [apply IH | done].
Qed.

Lemma col_value_exact (l : chars) :
  Forall (λ c, is_letter c = true) l →
  column_number l < 2 ^ 32 →
  col_value 0 l = Some (column_number l).
Proof.
  induction l as [|c l IH] using rev_ind; intros Hl Hlt; [done |].
  apply Forall_app in Hl as [Hl Hc]. apply Forall_inv in Hc.
  destruct (is_letter_value c Hc) as [v Hv].
  destruct (letter_value_spec c v Hv) as [Hrange _].
  pose proof (column_number_bounds l Hl) as Hlow.
  assert (0 < 2 ^ Z.of_nat (length l)) by (apply Z.pow_pos_nonneg; lia).
  rewrite column_number_snoc, Hv in *. cbn [default from_option id] in *.
  rewrite col_value_snoc, IH, Hv by (done || lia). cbn.
  by rewrite wrap32_small by lia.
Qed.

Lemma col_letters_exact (l : chars) (fuel : nat) (acc : chars) :
  Forall (λ c, is_letter c = true) l →
  (length l <= fuel)%nat →
  col_letters fuel (column_number l) acc = map toupper l ++ acc.
Proof.
  revert fuel acc. induction l as [|c l IH] using rev_ind; intros fuel acc Hl Hfuel.
  - by destruct fuel.
  - apply Forall_app in Hl as [Hl Hc]. apply Forall_inv in Hc.
    destruct (is_letter_value c Hc) as [v Hv].
    destruct (letter_value_spec c v Hv) as [Hrange Hchar].
    pose proof (column_number_bounds l Hl) as Hlow.
    assert (0 < 2 ^ Z.of_nat (length l)) by (apply Z.pow_pos_nonneg; lia).
    rewrite length_app in Hfuel. cbn in Hfuel.
    destruct fuel as [|fuel]; [lia |].
    rewrite column_number_snoc, Hv. cbn [default from_option id col_letters].
    set (N := column_number l) in *.
    destruct (Z.leb_spec (N * 26 + v) 0) as [Hle | _]; [lia |].
    replace ((N * 26 + v - 1) / 26) with N
      by (apply (Z.div_unique _ _ N (v - 1)); lia).
    replace ((N * 26 + v - 1) mod 26) with (v - 1)
      by (apply (Z.mod_unique _ _ N (v - 1)); lia).
    rewrite Hchar, IH by (done || lia).
    by rewrite map_app, <- (assoc_L (++)).
Qed.

(** *** Rows *)

Lemma row_number_snoc (l : chars) (c : ascii) :
  row_number (l ++ [c]) = row_number l * 10 + digit_value c.
Proof. unfold row_number. by rewrite fold_left_app. Qed.

Lemma row_number_nonneg (l : chars) :
  Forall (λ c, is_digit c = true) l → 0 <= row_number l.
Proof.
  induction l as [|c l IH] using rev_ind; intros Hl; [done |].
  apply Forall_app in Hl as [Hl Hc]. apply Forall_inv in Hc.
  destruct (digit_spec c Hc) as (Hrange & _). specialize (IH Hl).
  rewrite row_number_snoc. lia.
Qed.

Lemma no_leading_zero_snoc (l : chars) (c : ascii) :
  l ≠ [] → no_leading_zero (l ++ [c]) → no_leading_zero l.
Proof. by destruct l. Qed.

Lemma row_number_bounds (l : chars) :
  digits_ok l → 2 ^ Z.of_nat (length l) <= 2 * row_number l.
Proof.
  induction l as [|c l IH] using rev_ind; intros (Hne & Hl & Hlead); [done |].
  apply Forall_app in Hl as [Hl Hc]. apply Forall_inv in Hc.
  destruct (digit_spec c Hc) as (Hrange & _ & _ & Hpos).
  rewrite row_number_snoc, length_app, Nat2Z.inj_add. cbn [length].
  rewrite Z.pow_add_r by lia. change (2 ^ Z.of_nat 1) with 2.
  destruct l as [|d l'].
  - cbn in *. specialize (Hpos Hlead). lia.
  - assert (Hok : digits_ok (d :: l')).
    { split; [done | split; [done |]]. by apply (no_leading_zero_snoc _ c). }
    specialize (IH Hok). lia.
Qed.

Lemma dec_value_snoc (acc : Z) (l : chars) (c : ascii) :
  dec_value acc (l ++ [c])
  = n ← dec_value acc l; if is_digit c then Some (n * 10 + digit_value c) else None.
Proof.
  revert acc. induction l as [|x l IH]; intros acc; cbn.
  - by destruct (is_digit c).
  - destruct (is_digit x); [apply IH | done].
Qed.

Lemma dec_value_exact (l : chars) :
  Forall (λ c, is_digit c = true) l → dec_value 0 l = Some (row_number l).
Proof.
  induction l as [|c l IH] using rev_ind; intros Hl; [done |].
  apply Forall_app in Hl as [Hl Hc]. apply Forall_inv in Hc.
  by rewrite dec_value_snoc, IH, row_number_snoc, Hc.
Qed.

Lemma dec_digits_exact (l : chars) (fuel : nat) (acc : chars) :
  l = [] ∨ digits_ok l →
  (length l <= fuel)%nat →
  dec_digits fuel (row_number l) acc = l ++ acc.
Proof.
  revert fuel acc. induction l as [|c l IH] using rev_ind; intros fuel acc Hok Hfuel.
  - by destruct fuel.
  - destruct Hok as [Hnil | Hok]; [by destruct l |].
    pose proof (row_number_bounds _ Hok) as Hlow.
    destruct Hok as (_ & Hl & Hlead).
    apply Forall_app in Hl as [Hl Hc]. apply Forall_inv in Hc.
    destruct (digit_spec c Hc) as (Hrange & Hchar & _ & _).
    pose proof (row_number_nonneg l Hl) as Hnn.
    rewrite length_app, Nat2Z.inj_add in Hlow. cbn [length] in Hlow.
    assert (0 < 2 ^ (Z.of_nat (length l) + Z.of_nat 1)) by (apply Z.pow_pos_nonneg; lia).
    rewrite length_app in Hfuel. cbn in Hfuel.
    destruct fuel as [|fuel]; [lia |].
    rewrite row_number_snoc in *. cbn [dec_digits].
    set (N := row_number l) in *.
    destruct (Z.leb_spec (N * 10 + digit_value c) 0) as [Hle | _]; [lia |].
    replace ((N * 10 + digit_value c) / 10) with N
      by (apply (Z.div_unique _ _ N (digit_value c)); lia).
    replace ((N * 10 + digit_value c) mod 10) with (digit_value c)
      by (apply (Z.mod_unique _ _ N (digit_value c)); lia).
    rewrite Hchar, IH; [by rewrite <- (assoc_L (++)) | | lia].
    destruct l as [|d l']; [by left | right].
    split; [done | split; [done |]]. by apply (no_leading_zero_snoc _ c).
Qed.

(** *** References *)

Lemma span_letters_app (letters digits : chars) :
  Forall (λ c, is_letter c = true) letters →
  Forall (λ c, is_digit c = true) digits →
  span_letters (letters ++ digits) = (letters, digits).
Proof.
  intros Hl Hd. induction Hl as [|c l Hc Hl IH]; cbn.
  - destruct Hd as [|d ds Hd _]; [done |]. cbn.
    destruct (digit_spec d Hd) as (_ & _ & -> & _). done.
  - by rewrite Hc, IH.
Qed.

Lemma column_number_pos (letters : chars) :
  letters_ok letters → 1 <= column_number letters.
Proof.
  intros [Hne Hl]. pose proof (column_number_bounds letters Hl) as Hlow.
  destruct letters as [|c l]; [done |].
  rewrite length_cons, Nat2Z.inj_succ, Z.pow_succ_r in Hlow by lia.
  assert (0 < 2 ^ Z.of_nat (length l)) by (apply Z.pow_pos_nonneg; lia). lia.
Qed.

Lemma length_le_32 (n : nat) (z : Z) :
  2 ^ Z.of_nat n <= z → z < 2 ^ 33 → (n <= 32)%nat.
Proof.
  intros Hlow Hlt. destruct (decide (n <= 32)%nat) as [| Hgt]; [done |].
  assert (2 ^ 33 <= 2 ^ Z.of_nat n) by (apply Z.pow_le_mono_r; lia). lia.
Qed.

Lemma to_col_num_exact (letters : chars) :
  letters_ok letters → column_number letters < 2 ^ 32 →
  to_col_num letters = Some (column_number letters - 1).
Proof.
  intros Hok Hlt. pose proof (column_number_pos _ Hok). destruct Hok as [Hne Hl].
  unfold to_col_num. destruct letters as [|c l]; [done |].
  rewrite col_value_exact by done. cbn [mbind option_bind].
  by rewrite wrap32_small by lia.
Qed.

Lemma to_col_string_exact (letters : chars) :
  letters_ok letters → column_number letters < 2 ^ 32 →
  to_col_string (column_number letters - 1) = map toupper letters.
Proof.
  intros Hok Hlt. pose proof (column_number_pos _ Hok). destruct Hok as [Hne Hl].
  unfold to_col_string.
  replace (column_number letters - 1 + 1) with (column_number letters) by lia.
  rewrite wrap32_small by lia.
  rewrite col_letters_exact, app_nil_r; [done | done |].
  apply (length_le_32 _ (column_number letters + 1));
    [by apply column_number_bounds | lia].
Qed.

Lemma to_string_exact (digits : chars) :
  digits_ok digits → row_number digits < 2 ^ 32 →
  1 <= row_number digits ∧ to_string (row_number digits) = digits.
Proof.
  intros Hok Hlt. pose proof (row_number_bounds _ Hok) as Hlow.
  assert (0 < 2 ^ Z.of_nat (length digits)) by (apply Z.pow_pos_nonneg; lia).
  split; [lia |]. unfold to_string.
  destruct (Z.eqb_spec (row_number digits) 0) as [Hz | _]; [lia |].
  rewrite dec_digits_exact, app_nil_r; [done | by right |].
  apply (length_le_32 _ (2 * row_number digits)); [done | lia].
Qed.

(** C8. A reference made of column letters and a decimal row without a
    leading zero, whose column and row fit the 32-bit members, decodes and
    encodes back to itself with the letters in upper case; upper-case letters
    are left as they are; A1 is row 0, column 0; the empty string and a row
    of zeros do not decode. *)
Theorem toString_fromString (letters digits : chars) :
  letters_ok letters →
  digits_ok digits →
  column_number letters < 2 ^ 32 →
  row_number digits < 2 ^ 32 →
  toString <$> fromString (letters ++ digits) = Some (map toupper letters ++ digits)
  ∧ (Forall (λ c, is_upper c = true) letters → map toupper letters = letters)
  ∧ fromString ["A"; "1"]%char = Some {| row := 0; col := 0 |}
  ∧ fromString [] = None
  ∧ (∀ zeros : chars,
       Forall (λ c, c = "0"%char) zeros → fromString (letters ++ zeros) = None).
Proof.
  intros Hletters Hdigits Hcol Hrow.
  split; [| split; [| split; [reflexivity | split; [reflexivity |]]]].
  - destruct (to_string_exact _ Hdigits Hrow) as [Hpos Hstr].
    pose proof (column_number_pos _ Hletters) as Hcpos.
    unfold fromString.
    rewrite span_letters_app by (apply Hletters || apply Hdigits).
    rewrite to_col_num_exact by done. cbn [mbind option_bind].
    destruct digits as [|d ds] eqn:Hd; [by destruct Hdigits |]. rewrite <- Hd in *.
    rewrite dec_value_exact by apply Hdigits. cbn [mbind option_bind].
    destruct (Z.eqb_spec (row_number digits) 0) as [Hz | _]; [lia |].
    cbn [fmap option_fmap option_map]. f_equal. unfold toString. cbn [row col].
    rewrite to_col_string_exact by done.
    rewrite (wrap32_small (row_number digits - 1)) by lia.
    replace (row_number digits - 1 + 1) with (row_number digits) by lia.
    by rewrite wrap32_small, Hstr by lia.
  - intros Hupper. clear -Hupper. induction Hupper as [|c l Hc _ IH]; [done |].
    cbn [map]. by rewrite IH, (proj1 (toupper_upper c Hc)).
  - intros zeros Hzeros.
    assert (Hd : Forall (λ c, is_digit c = true) zeros).
    { eapply Forall_impl; [exact Hzeros |]. by intros c ->. }
    assert (Hrow0 : row_number zeros = 0).
    { clear -Hzeros. induction zeros as [|c l IH] using rev_ind; [done |].
      apply Forall_app in Hzeros as [Hl Hc]. apply Forall_inv in Hc. subst c.
      rewrite row_number_snoc, IH by done. reflexivity. }
    unfold fromString. rewrite span_letters_app by (apply Hletters || done).
    rewrite to_col_num_exact by done. cbn [mbind option_bind].
    destruct zeros as [|z zs] eqn:Hz; [done |]. rewrite <- Hz in *.
    rewrite dec_value_exact, Hrow0 by done. reflexivity.
Qed.

Example fromString_Z1 :
  fromString (chars_of "Z1") = Some {| row := 0; col := 25 |}.
Proof. reflexivity. Qed.

Example fromString_AA1 :
  fromString (chars_of "AA1") = Some {| row := 0; col := 26 |}.
Proof. reflexivity. Qed.

Example fromString_A0 : fromString (chars_of "A0") = None.
Proof. reflexivity. Qed.

Lemma toString_fromString_witness :
  toString <$> fromString (chars_of "bc" ++ chars_of "4096")
    = Some (map toupper (chars_of "bc") ++ chars_of "4096")
  ∧ (Forall (λ c, is_upper c = true) (chars_of "bc") →
     map toupper (chars_of "bc") = chars_of "bc")
  ∧ fromString ["A"; "1"]%char = Some {| row := 0; col := 0 |}
  ∧ fromString [] = None
  ∧ (∀ zeros : chars,
       Forall (λ c, c = "0"%char) zeros → fromString (chars_of "bc" ++ zeros) = None).
Proof.
  apply (toString_fromString (chars_of "bc") (chars_of "4096")).
  - split; [discriminate | repeat constructor].
  - split; [discriminate | split; [repeat constructor | discriminate]].
  - reflexivity.
  - reflexivity.
Defined.

End TablePositionProperties.

(** * Further properties *)

(** ** Document.cpp: decryption, detection and the facade together *)

Module DocumentFurther.
Import Document DocumentProperties DocumentMeta.

Section Further.
Context {Storage OpenDocument OfficeOpenXml Util : Type}.
Context `{!StorageApi Storage}.
Context `{odf : !DocumentApi Storage OpenDocument}.
Context `{ooxml : !DocumentApi Storage OfficeOpenXml}.
Context `{!CfbCryptoApi Util}.
Context `{!ConstructorApi Storage OfficeOpenXml}.

Abbreviation Impl'' := (@Impl Storage OpenDocument OfficeOpenXml).
Abbreviation Document'' := (@Document Storage OpenDocument OfficeOpenXml).
Abbreviation OfficeOpenXmlImpl'' := (@OfficeOpenXmlImpl Storage OfficeOpenXml).

(** The constructor leaves [storage_] null, and [decrypt_] reads through it
    first. *)
Theorem decrypt__after_constructor (storage : Storage) (self : OfficeOpenXmlImpl'')
    (trace : list event) (password : string) :
  OfficeOpenXmlImpl_new (OpenDocument := OpenDocument) storage = Returned (Ooxml self) →
  decrypt_ (Util := Util) password (self, trace) = None.
Proof.
  unfold OfficeOpenXmlImpl_new. destruct (doc_new storage) as [document|]; [| done].
  cbn. destruct (getMeta document) as [meta|]; [| done]. intros [= <-]. reflexivity.
Qed.

(** After [decrypt] the cached metadata is the document's own when the
    answer is true, and what it was in every other case. *)
Theorem decrypt_refreshes_meta (d : Document'') (password : string) :
  Returned (meta_ (impl_ (Document_decrypt d password).2))
  = match (Document_decrypt d password).1 with
    | Returned true => document_meta (impl_ (Document_decrypt d password).2)
    | _ => Returned (meta_ (impl_ d))
    end.
Proof.
  unfold Document_decrypt, Impl_decrypt. destruct d as [[m | o | o]]; cbn.
  - done.
  - destruct (doc_decrypt (od_document_ o) password) as [[[] | e] document]; cbn;
      [| done | done].
    destruct (getMeta document) as [meta | e] eqn:Hmeta; cbn; [| done].
    by rewrite Hmeta.
  - destruct (doc_decrypt (ox_document_ o) password) as [[[] | e] document]; cbn;
      [| done | done].
    destruct (getMeta document) as [meta | e] eqn:Hmeta; cbn; [| done].
    by rewrite Hmeta.
Qed.

(** [readType] and [readMeta] give what [open] followed by [type], or by
    [meta], gives, and UNKNOWN, or an empty record, where [open] gives null. *)
Theorem readType_is_open_then_type (path : string) :
  Document_readType (OpenDocument := OpenDocument) (OfficeOpenXml := OfficeOpenXml) path
  = match Document_open path with
    | Returned (Some d) => Document_type (d : Document'')
    | _ => Returned UNKNOWN
    end
  ∧ Document_readMeta (OpenDocument := OpenDocument) (OfficeOpenXml := OfficeOpenXml) path
    = match Document_open path with
      | Returned (Some d) => Document_meta (d : Document'')
      | _ => Returned FileMeta_default
      end.
Proof.
  unfold Document_readType, Document_readMeta, Document_open.
  destruct (openImpl path : outcome Impl''); split; reflexivity.
Qed.

(** An exception of a reader that is not its own format mismatch leaves
    [openImpl] as it is, without a further attempt; [open] turns it into
    null. *)
Theorem openImpl_foreign_exception (path : string) (e : exn) :
  (ZipReader path = Thrown e ∧ e ≠ NoZipFileException)
  ∨ (zip_declines (OpenDocument := OpenDocument) (OfficeOpenXml := OfficeOpenXml) path
     ∧ CfbReader path = Thrown e ∧ e ≠ NoCfbFileException) →
  openImpl path = (Thrown e : outcome Impl'')
  ∧ Document_open path = Returned (None : option Document'').
Proof.
  intros H.
  assert (Himpl : openImpl path = (Thrown e : outcome Impl'')).
  { unfold openImpl. destruct H as [[Hzip Hne] | (Hzip & Hcfb & Hne)].
    - unfold zip_block. rewrite Hzip. cbn. by rewrite decide_False.
    - rewrite (zip_declines_falls_through _ Hzip). cbn.
      unfold cfb_block. rewrite Hcfb. cbn. by rewrite decide_False. }
  split; [done |]. unfold Document_open. by rewrite Himpl.
Qed.

(** A legacy file is opened, and its handle does nothing but tell its type:
    every capability is false, and decrypt, translate, edit and save answer
    false and leave the handle as it is. *)
Theorem legacy_handle_detects_only (path : string) (storage : Storage)
    (password target config diff : string) :
  zip_declines (OpenDocument := OpenDocument) (OfficeOpenXml := OfficeOpenXml) path →
  CfbReader path = Returned storage →
  isFile storage "WordDocument" || isFile storage "PowerPoint Document"
    || isFile storage "Workbook" = true →
  ∃ d : Document'',
    Document_open path = Returned (Some d)
    ∧ Document_encrypted d = Returned false
    ∧ Document_decrypted d = Returned false
    ∧ Document_canTranslate d = Returned false
    ∧ Document_canEdit d = Returned false
    ∧ Document_canSave d = Returned false
    ∧ Document_decrypt d password = (Returned false, d)
    ∧ Document_translate d target config = (Returned false, d)
    ∧ Document_edit d diff = (Returned false, d)
    ∧ Document_save d target = Returned false
    ∧ Document_save_password d target password = Returned false.
Proof.
  intros Hzip Hcfb Hlegacy.
  assert (Hopen : ∃ m, encrypted m = false
                       ∧ openImpl path = (Returned (Base m) : outcome Impl'')).
  { unfold openImpl. rewrite (zip_declines_falls_through _ Hzip). cbn.
    unfold cfb_block. rewrite Hcfb. cbn.
    destruct (isFile storage "WordDocument"); [eexists; split; [| reflexivity]; reflexivity |].
    destruct (isFile storage "PowerPoint Document"); [eexists; split; [| reflexivity]; reflexivity |].
    destruct (isFile storage "Workbook"); [| done].
    eexists; split; [| reflexivity]; reflexivity. }
  destruct Hopen as (m & Hm & Hopen). exists (mkDocument (Base m)).
  unfold Document_open. rewrite Hopen. cbn.
  unfold Document_encrypted, Impl_encrypted. cbn. rewrite Hm.
  by destruct m.
Qed.

End Further.

Import (hints) Fixture Faulty.

Lemma decrypt__after_constructor_witness :
  decrypt_ (Util := Fixture.Util) "sesame"
    ({| ox_meta_ := Fixture.meta_of OFFICE_OPEN_XML Fixture.secret_docx;
        ox_decrypted_ := false; ox_storage_ := None;
        ox_document_ := Fixture.mkOfficeOpenXml Fixture.secret_docx |}, [])
  = None.
Proof.
  apply (decrypt__after_constructor (OpenDocument := Fixture.OpenDocument)
           Fixture.secret_docx).
  reflexivity.
Defined.

Lemma openImpl_foreign_exception_witness :
  openImpl "broken.zip"
  = (Thrown OtherException : outcome (@Impl Faulty.disk unit unit))
  ∧ Document_open "broken.zip"
    = Returned (None : option (@Document Faulty.disk unit unit)).
Proof.
  apply (openImpl_foreign_exception "broken.zip" OtherException).
  left. split; [reflexivity | discriminate].
Defined.

Lemma legacy_handle_detects_only_witness :
  ∃ d : @Document _ Fixture.OpenDocument Fixture.OfficeOpenXml,
    Document_open "slides.ppt" = Returned (Some d)
    ∧ Document_encrypted d = Returned false
    ∧ Document_decrypted d = Returned false
    ∧ Document_canTranslate d = Returned false
    ∧ Document_canEdit d = Returned false
    ∧ Document_canSave d = Returned false
    ∧ Document_decrypt d "sesame" = (Returned false, d)
    ∧ Document_translate d "copy.ppt" "" = (Returned false, d)
    ∧ Document_edit d "{}" = (Returned false, d)
    ∧ Document_save d "copy.ppt" = Returned false
    ∧ Document_save_password d "copy.ppt" "sesame" = Returned false.
Proof.
  apply (legacy_handle_detects_only "slides.ppt" Fixture.slides_ppt);
    [left |  | ]; reflexivity.
Defined.

End DocumentFurther.

(** ** ContentTranslator.cpp: what translation writes *)

Module EmissionProperties.
Import StyleTranslator ContentTranslator Samples TranslatorProperties Emission.

(** Induction on an element through the elements among its children. *)
Lemma XMLElement_tree_ind (P : XMLElement → Prop) :
  (∀ name attrs children,
     Forall (λ n, match n with NElement e => P e | _ => True end) children →
     P (mkElement name attrs children)) →
  ∀ e, P e.
Proof.
  intros step. fix IH 1. intros [name attrs children]. apply step.
  induction children as [|n children IHc]; constructor; [| exact IHc].
  destruct n as [v | v | e]; [exact I | exact I | apply IH].
Qed.

Lemma writer_id : writer (λ st, st).
Proof.
  intros c. exists "", []. intros [o c' l] <-. cbn.
  by rewrite app_nil_r, (right_id_L [] (++)).
Qed.

Lemma writer_write (s : string) : writer (write s).
Proof.
  intros c. exists s, []. intros st <-. unfold write.
  by rewrite (right_id_L [] (++)).
Qed.

Lemma writer_LOG (sev : severity) (msg : string) : writer (LOG sev msg).
Proof.
  intros c. exists "", [(sev, msg)]. intros st <-. unfold LOG.
  by rewrite app_nil_r.
Qed.

Lemma writer_compose (f g : State → State) :
  writer f → writer g → writer (λ st, g (f st)).
Proof.
  intros Hf Hg c. destruct (Hf c) as (o1 & l1 & H1), (Hg c) as (o2 & l2 & H2).
  exists (o1 +:+ o2), (l1 ++ l2). intros st Hc.
  rewrite (H1 st Hc), H2 by done. cbn.
  by rewrite app_assoc, (assoc_L (++)).
Qed.

Lemma writer_ext (f g : State → State) :
  (∀ st, f st = g st) → writer f → writer g.
Proof.
  intros Heq Hf c. destruct (Hf c) as (o & l & H). exists o, l.
  intros st Hc. by rewrite <- Heq, H.
Qed.

Lemma writer_fold {A} (step : State → A → State) (xs : list A) :
  Forall (λ x, writer (λ st, step st x)) xs →
  writer (λ st, fold_left step xs st).
Proof.
  induction 1 as [|x xs Hx _ IH]; [apply writer_id |].
  apply (writer_compose (λ st, step st x) (λ st, fold_left step xs st) Hx IH).
Qed.

Lemma writer_run (f : State → State) (st : State) :
  writer f →
  f st = {| out := out st +:+ out (f (blank_state (context st)));
            context := context st;
            glog := glog st ++ glog (f (blank_state (context st))) |}.
Proof.
  intros Hf. destruct (Hf (context st)) as (o & l & H).
  rewrite (H st eq_refl), (H (blank_state (context st)) eq_refl). done.
Qed.

Ltac writer_step :=
  lazymatch goal with
  | |- writer (λ st, st) => apply writer_id
  | |- writer (write _) => apply writer_write
  | |- writer (LOG _ _) => apply writer_LOG
  | |- writer (λ st, write ?s (@?f st)) => apply (writer_compose f (write s))
  | |- writer (λ st, LOG ?a ?b (@?f st)) => apply (writer_compose f (LOG a b))
  end.

Lemma writer_AttributeTranslator (t : AttributeTranslator) (a : XMLAttribute) :
  writer (AttributeTranslator_translate t a).
Proof.
  destruct t as [name |]; [apply writer_write |].
  intros c. unfold AttributeTranslator_translate.
  destruct (styleDependencies c !! Value a) as [deps|] eqn:Hdeps.
  - destruct (writer_compose _ _ (writer_write ("class=" +:+ dq))
               (writer_compose _ _
                  (writer_fold (λ st i, write (i +:+ " ") st) (rev deps)
                     (proj2 (Forall_forall _ _) (λ i _, writer_write (i +:+ " "))))
                  (writer_write (Value a +:+ dq))) c) as (o & l & H).
    exists o, l. intros st Hc. rewrite Hc, Hdeps. by apply H.
  - destruct (writer_LOG WARNING ("unknown style: " +:+ Value a) c) as (o & l & H).
    exists o, l. intros st Hc. rewrite Hc, Hdeps. by apply H.
Qed.

Lemma writer_translate_attribute (in_ : XMLElement)
    (tbl : gmap string (option AttributeTranslator)) (a : XMLAttribute) :
  writer (λ st, translate_attribute in_ tbl st a).
Proof.
  unfold translate_attribute. destruct (tbl !! attr_Name a) as [[t|]|].
  - apply (writer_compose (write " ") (AttributeTranslator_translate t a));
      [apply writer_write | apply writer_AttributeTranslator].
  - apply writer_id.
  - apply writer_LOG.
Qed.

Lemma writer_translateStart (t : ElementTranslator) (in_ : XMLElement) :
  writer (translateStart t in_).
Proof.
  destruct t as [name newAttributes tbl | | | |]; unfold translateStart.
  - apply (writer_compose _ (write ">")); [| apply writer_write].
    apply (writer_compose _ (λ st, fold_left (translate_attribute in_ tbl)
                                     (attributes in_) st)).
    + apply (writer_compose (write ("<" +:+ name))
               (λ st, fold_left
                  (λ st a, write (" " +:+ a.1 +:+ "=" +:+ dq +:+ a.2 +:+ dq) st)
                  newAttributes st)); [apply writer_write |].
      apply writer_fold, Forall_forall. intros a _. apply writer_write.
    + apply writer_fold, Forall_forall. intros a _.
      apply writer_translate_attribute.
  - destruct (Int64Attribute in_ "text:c" (-1) <=? 0); [apply writer_id |].
    apply (writer_ext (write (spaces (Z.to_nat (Int64Attribute in_ "text:c" (-1)))))).
    + intros st. by rewrite write_spaces_eq.
    + apply writer_write.
  - apply writer_write.
  - cbv zeta. destruct (FindAttribute in_ "xlink:href") as [href|];
      [destruct (starts_with_hash (Value href)) |]; repeat writer_step.
  - cbv zeta. destruct (FindAttribute in_ "text:name") as [id|]; repeat writer_step.
Qed.

Lemma writer_translateEnd (t : ElementTranslator) (in_ : XMLElement) :
  writer (translateEnd t in_).
Proof.
  destruct t; unfold translateEnd; (apply writer_write || apply writer_id).
Qed.

Lemma writer_translate (e : XMLElement) : writer (translate e).
Proof.
  induction e as [name attrs children IH] using XMLElement_tree_ind.
  apply (writer_ext _ _ (λ st, eq_sym (translate_eq name attrs children st))).
  cbv zeta. set (in_ := mkElement name attrs children).
  assert (Hchildren : writer (translate_children children)).
  { unfold translate_children. apply writer_fold.
    eapply Forall_impl; [exact IH |]. intros [v | v | e] He; cbn.
    - apply writer_write.
    - apply writer_id.
    - exact He. }
  destruct (elementTranslator !! name) as [[t|]|]; cbn [mbind option_bind id].
  - apply (writer_compose _ (translateEnd t in_)); [| apply writer_translateEnd].
    apply (writer_compose (translateStart t in_) (translate_children children));
      [apply writer_translateStart | exact Hchildren].
  - exact Hchildren.
  - apply (writer_compose (LOG WARNING ("unhandled element: " +:+ name))
             (translate_children children)); [apply writer_LOG | exact Hchildren].
Qed.

Lemma writer_translate_children (cs : list XMLNode) : writer (translate_children cs).
Proof.
  unfold translate_children. apply writer_fold, Forall_forall.
  intros [v | v | e] _; cbn;
    [apply writer_write | apply writer_id | apply writer_translate].
Qed.

(** The translation of an element leaves the context alone and only adds to
    the stream and to the log, and what it adds depends on the element and
    the context, not on what was written or logged before. *)
Theorem translate_only_appends (e : XMLElement) (st : State) :
  translate e st
  = {| out := out st +:+ emitted e (context st);
       context := context st;
       glog := glog st ++ logged e (context st) |}.
Proof. apply (writer_run (translate e) st), writer_translate. Qed.


Lemma write_write (a b : string) (st : State) :
  write b (write a st) = write (a +:+ b) st.
Proof. unfold write; cbn. by rewrite app_assoc. Qed.

Lemma write_LOG (sev : severity) (msg s : string) (st : State) :
  write s (LOG sev msg st) = LOG sev msg (write s st).
Proof. reflexivity. Qed.

Lemma lookup_dropped_sample : elementTranslator !! "office:text" = Some None.
Proof. reflexivity. Qed.

(** An element whose entry in the table is null is dropped without a word:
    only its children are translated. *)
Theorem dropped_element (name : string) (attrs : list XMLAttribute)
    (children : list XMLNode) (st : State) :
  elementTranslator !! name = Some None →
  translate (mkElement name attrs children) st = translate_children children st.
Proof. intros H. rewrite translate_eq. cbv zeta. by rewrite H. Qed.

Lemma dropped_element_witness :
  translate (mkElement "office:text" [mkAttribute "text:use-soft-page-breaks" "true"]
                       [NText "body"]) empty_state
  = translate_children [NText "body"] empty_state.
Proof.
  apply (dropped_element "office:text"
           [mkAttribute "text:use-soft-page-breaks" "true"] [NText "body"] empty_state).
  reflexivity.
Defined.

Lemma new_attributes_fold (newAttributes : list (string * string)) (st : State) :
  fold_left (λ st a, write (" " +:+ a.1 +:+ "=" +:+ dq +:+ a.2 +:+ dq) st)
            newAttributes st
  = write (new_attributes_text newAttributes) st.
Proof.
  apply (write_fold (λ a : string * string,
                       " " +:+ a.1 +:+ "=" +:+ dq +:+ a.2 +:+ dq)).
Qed.

(** The stream after an element the table renames: the open tag with the
    attributes the translator adds first, then what the element's own
    attributes write, one after the other, under the context, then the
    children, and the close tag of the same name. *)
Theorem renamed_element_out (name tag : string) (newAttributes : list (string * string))
    (tbl : gmap string (option AttributeTranslator))
    (attrs : list XMLAttribute) (children : list XMLNode) (st : State) :
  elementTranslator !! name = Some (Some (DefaultElementTranslator tag newAttributes tbl)) →
  out (translate (mkElement name attrs children) st)
  = out st +:+ "<" +:+ tag +:+ new_attributes_text newAttributes
      +:+ out (fold_left (translate_attribute (mkElement name attrs children) tbl)
                 attrs (blank_state (context st)))
      +:+ ">" +:+ emitted_children children (context st)
      +:+ "</" +:+ tag +:+ ">".
Proof.
  intros H. rewrite translate_eq. cbv zeta. rewrite H.
  cbn [mbind option_bind id translateStart translateEnd attributes].
  rewrite new_attributes_fold.
  set (in_ := mkElement name attrs children).
  assert (Hattrs : writer (λ st, fold_left (translate_attribute in_ tbl) attrs st)).
  { apply writer_fold, Forall_forall. intros a _. apply writer_translate_attribute. }
  rewrite (writer_run _ (write _ (write _ st)) Hattrs).
  cbn [write out context glog].
  rewrite (writer_run _ _ (writer_translate_children children)).
  cbn [write out context glog]. unfold emitted_children.
  by rewrite !app_assoc.
Qed.

Lemma renamed_element_out_witness :
  out (translate (mkElement "table:table"
                    [mkAttribute "table:name" "Sheet1";
                     mkAttribute "table:style-name" "S2"]
                    [NText "cells"]) resolved_S2)
  = out resolved_S2 +:+ "<" +:+ "table"
      +:+ new_attributes_text
            [("border", "0"); ("cellspacing", "0"); ("cellpadding", "0")]
      +:+ out (fold_left
                 (translate_attribute
                    (mkElement "table:table"
                       [mkAttribute "table:name" "Sheet1";
                        mkAttribute "table:style-name" "S2"]
                       [NText "cells"])
                    (assign_all [("table:name", None); ("table:print", None)]
                       (assign_all
                          [("text:style-name", Some StyleAttributeTranslator);
                           ("table:style-name", Some StyleAttributeTranslator)] ∅)))
                 [mkAttribute "table:name" "Sheet1";
                  mkAttribute "table:style-name" "S2"]
                 (blank_state (context resolved_S2)))
      +:+ ">" +:+ emitted_children [NText "cells"] (context resolved_S2)
      +:+ "</" +:+ "table" +:+ ">".
Proof.
  apply (renamed_element_out "table:table" "table"
           [("border", "0"); ("cellspacing", "0"); ("cellpadding", "0")]
           (assign_all [("table:name", None); ("table:print", None)]
              (assign_all [("text:style-name", Some StyleAttributeTranslator);
                           ("table:style-name", Some StyleAttributeTranslator)] ∅))).
  reflexivity.
Defined.

(** Attributes the table of a renaming translator lacks are logged, those it
    maps to null are passed over, and neither kind writes anything. *)
Theorem unhandled_attributes (tag : string) (newAttributes : list (string * string))
    (tbl : gmap string (option AttributeTranslator)) (in_ : XMLElement) (st : State) :
  Forall (λ a, tbl !! attr_Name a = None ∨ tbl !! attr_Name a = Some None)
         (attributes in_) →
  translateStart (DefaultElementTranslator tag newAttributes tbl) in_ st
  = {| out := out st +:+ "<" +:+ tag +:+ new_attributes_text newAttributes +:+ ">";
       context := context st;
       glog := glog st
               ++ map (unhandled_attribute in_)
                    (filter (λ a, tbl !! attr_Name a = None) (attributes in_)) |}.
Proof.
  intros Hattrs. cbn [translateStart]. rewrite new_attributes_fold.
  rewrite write_write.
  assert (Hfold : ∀ st,
    fold_left (translate_attribute in_ tbl) (attributes in_) st
    = {| out := out st; context := context st;
         glog := glog st ++ map (unhandled_attribute in_)
                   (filter (λ a, tbl !! attr_Name a = None) (attributes in_)) |}).
  { clear st. induction Hattrs as [|a l Ha _ IH]; intros st.
    - cbn. rewrite (right_id_L [] (++)). by destruct st.
    - cbn [fold_left]. rewrite IH. unfold translate_attribute.
      destruct Ha as [Ha | Ha].
      + rewrite filter_cons_True by done. rewrite Ha. cbn.
        rewrite <- (assoc_L (++)). reflexivity.
      + rewrite filter_cons_False by (intros Hx; cbv beta in Hx; rewrite Ha in Hx; discriminate).
        by rewrite Ha. }
  rewrite Hfold. unfold write. cbn [out context glog]. by rewrite !app_assoc.
Qed.

Lemma unhandled_attributes_witness :
  translateStart (DefaultElementTranslator "td" [] (assign_all [("table:formula", None)] ∅))
    (mkElement "table:table-cell"
       [mkAttribute "table:formula" "=A1"; mkAttribute "office:currency" "EUR"] [])
    empty_state
  = {| out := out empty_state +:+ "<" +:+ "td" +:+ new_attributes_text [] +:+ ">";
       context := context empty_state;
       glog := glog empty_state
               ++ map (unhandled_attribute
                         (mkElement "table:table-cell"
                            [mkAttribute "table:formula" "=A1";
                             mkAttribute "office:currency" "EUR"] []))
                    (filter (λ a, assign_all [("table:formula", None)] ∅ !! attr_Name a
                                  = (None : option (option AttributeTranslator)))
                       (attributes
                          (mkElement "table:table-cell"
                             [mkAttribute "table:formula" "=A1";
                              mkAttribute "office:currency" "EUR"] []))) |}.
Proof.
  apply (unhandled_attributes "td" [] (assign_all [("table:formula", None)] ∅)).
  constructor; [right; reflexivity |].
  constructor; [left; reflexivity | constructor].
Defined.

(** Children that are texts and comments: the texts are written as they
    are, in order, the comments are passed over, nothing is logged. *)
Theorem texts_verbatim (cs : list XMLNode) (st : State) :
  Forall (λ n, is_element n = false) cs →
  translate_children cs st = write (texts cs) st.
Proof.
  intros Hcs. revert st. unfold translate_children.
  induction Hcs as [|n cs Hn _ IH]; intros st.
  - by rewrite write_nil.
  - cbn [fold_left]. rewrite IH. destruct n as [v | v | e]; [| done | done].
    cbn [translate_child texts]. by rewrite write_write.
Qed.


Lemma texts_verbatim_witness :
  translate_children [NText "a < b"; NComment "note"; NText " & c"] empty_state
  = write (texts [NText "a < b"; NComment "note"; NText " & c"]) empty_state.
Proof.
  apply (texts_verbatim [NText "a < b"; NComment "note"; NText " & c"] empty_state).
  repeat constructor.
Defined.

(** A bookmark, under either of its two names: an anchor with the name as
    id, or a bare anchor and a warning; the children are inside. *)
Theorem bookmark_anchor (name : string) (attrs : list XMLAttribute)
    (children : list XMLNode) (st : State) :
  name = "text:bookmark" ∨ name = "text:bookmark-start" →
  translate (mkElement name attrs children) st
  = write "</a>"
      (translate_children children
         (bookmark_start (FindAttribute (mkElement name attrs children) "text:name") st)).
Proof.
  intros Hname. rewrite translate_eq. cbv zeta.
  assert (Hlookup : elementTranslator !! name = Some (Some BookmarkTranslator))
    by (destruct Hname as [-> | ->]; reflexivity).
  rewrite Hlookup. cbn [mbind option_bind id translateStart translateEnd].
  do 2 f_equal. unfold bookmark_start.
  destruct (FindAttribute _ "text:name") as [id|].
  - rewrite !write_write, !app_assoc. reflexivity.
  - rewrite write_LOG, write_write. reflexivity.
Qed.

Lemma bookmark_anchor_witness :
  translate (mkElement "text:bookmark-start" [mkAttribute "text:name" "intro"] [])
            empty_state
  = write "</a>"
      (translate_children []
         (bookmark_start
            (FindAttribute
               (mkElement "text:bookmark-start" [mkAttribute "text:name" "intro"] [])
               "text:name") empty_state)).
Proof.
  apply (bookmark_anchor "text:bookmark-start" [mkAttribute "text:name" "intro"] []).
  by right.
Defined.

(** A tab: one tab character, no tag, and then the children like those of
    any element. *)
Theorem tab_character (attrs : list XMLAttribute) (children : list XMLNode)
    (st : State) :
  translate (mkElement "text:tab" attrs children) st
  = translate_children children (write (String "009" "") st).
Proof.
  rewrite translate_eq. cbv zeta.
  change (elementTranslator !! "text:tab") with (Some (Some TabTranslator)).
  reflexivity.
Qed.

(** A link: the anchor as the code writes it, with a double quote and no
    equals sign after [href] and after [target], the latter for a reference
    that starts with #; without the attribute, a bare anchor and a warning. *)
Theorem link_anchor (attrs : list XMLAttribute) (children : list XMLNode)
    (st : State) :
  translate (mkElement "text:a" attrs children) st
  = write "</a>"
      (translate_children children
         (link_start (FindAttribute (mkElement "text:a" attrs children) "xlink:href")
                     st)).
Proof.
  rewrite translate_eq. cbv zeta.
  change (elementTranslator !! "text:a") with (Some (Some LinkTranslator)).
  cbn [mbind option_bind id translateStart translateEnd].
  do 2 f_equal. unfold link_start.
  destruct (FindAttribute _ "xlink:href") as [href|].
  - destruct (starts_with_hash (Value href)).
    + rewrite !write_write, !app_assoc. reflexivity.
    + rewrite !write_write, !app_assoc. reflexivity.
  - rewrite write_LOG, write_write. reflexivity.
Qed.

End EmissionProperties.

(** ** StyleTranslator.cpp: escaping, entries and rules *)

Module StyleSheetProperties.
Import StyleTranslator ContentTranslator Samples TranslatorProperties Emission
  EmissionProperties.

(** *** [escapeStyleName] *)

Lemma escapeStyleName_map (s : string) :
  escapeStyleName s = map_chars escape_char s.
Proof.
  unfold escapeStyleName, findAndReplaceAll.
  induction s as [|c s IH]; [done |].
  cbn [replace_from map_chars String.prefix]. unfold escape_char at 1.
  destruct (ascii_dec "." c) as [<- | Hne].
  - rewrite decide_True by done. cbn [String.length Nat.sub].
    destruct s; cbn [String.prefix]; rewrite <- IH; reflexivity.
  - rewrite decide_False by done. by rewrite IH.
Qed.

Lemma escape_char_cases (c : ascii) :
  (c = "."%char ∧ escape_char c = "_"%char) ∨ (c ≠ "."%char ∧ escape_char c = c).
Proof.
  unfold escape_char. destruct (decide (c = "."%char)); [by left | by right].
Qed.

(** Escaping a second time changes nothing, keeps the length, leaves no
    dot, and is the identity on a name without a dot. *)
Theorem escapeStyleName_idempotent (s : string) :
  escapeStyleName (escapeStyleName s) = escapeStyleName s
  ∧ String.length (escapeStyleName s) = String.length s
  ∧ ("."%char ∉ String.list_ascii_of_string (escapeStyleName s))
  ∧ ("."%char ∉ String.list_ascii_of_string s → escapeStyleName s = s).
Proof.
  rewrite !escapeStyleName_map.
  induction s as [|c s (IH1 & IH2 & IH3 & IH4)].
  - split; [reflexivity | split; [reflexivity | split; [apply not_elem_of_nil |]]].
    reflexivity.
  - cbn [map_chars String.length String.list_ascii_of_string].
    rewrite IH1, IH2, !not_elem_of_cons.
    destruct (escape_char_cases c) as [[-> Hc] | [Hne Hc]]; rewrite !Hc.
    + split; [reflexivity | split; [reflexivity | split; [by split |]]].
      by intros [? _].
    + split; [reflexivity | split; [reflexivity | split]].
      * split; [congruence | exact IH3].
      * intros [_ Hs]. by rewrite IH4.
Qed.

(** *** [StylePropertiesTranslator] and [StyleClassTranslator] *)

Lemma StylePropertiesTranslator_write (a : XMLAttribute) (st : State) :
  StylePropertiesTranslator a st = write (property_css a) st.
Proof.
  unfold StylePropertiesTranslator, property_css.
  destruct (substitution !! attr_Name a); [done |].
  repeat case_decide; by rewrite ?write_nil.
Qed.

Lemma declarations_write (in_ : XMLElement) (st : State) :
  visitElementChildren in_
    (λ e, visitElementAttributes e StylePropertiesTranslator) st
  = write (declarations in_) st.
Proof.
  unfold visitElementChildren, declarations. revert st.
  induction (children in_) as [|n cs IH]; intros st; cbn [fold_left foldr].
  - by rewrite write_nil.
  - rewrite IH. destruct n as [v | v | c]; [done | done |].
    unfold visitElementAttributes. generalize (foldr
      (λ n acc, match n with
                | NElement c => foldr (λ a acc, property_css a +:+ acc) acc (attributes c)
                | _ => acc
                end) "" cs). intros tail. revert st.
    induction (attributes c) as [|a l IHl]; intros st; cbn [fold_left foldr]; [done |].
    by rewrite IHl, StylePropertiesTranslator_write, write_write.
Qed.

Lemma elementToNameAttr_other (name : string) :
  name ≠ "style:default-style" → name ≠ "style:style" →
  elementToNameAttr !! name = None.
Proof.
  intros H1 H2.
  change elementToNameAttr
    with (<["style:default-style" := "style:family"]>
            (<["style:style" := "style:name"]> (∅ : gmap string string))).
  by rewrite !lookup_insert_ne, lookup_empty.
Qed.

(** The whole map after a style element that has its name attribute. *)
Lemma StyleClassTranslator_map (in_ : XMLElement) (st : State)
    (attr : string) (nameAttr : XMLAttribute) :
  elementToNameAttr !! Name in_ = Some attr →
  FindAttribute in_ attr = Some nameAttr →
  styleDependencies (context (StyleClassTranslator in_ st))
  = match recorded in_ with
    | [] => styleDependencies (context st)
    | added =>
        <[escapeStyleName (Value nameAttr) :=
            dependencies st (escapeStyleName (Value nameAttr)) ++ added]>
          (styleDependencies (context st))
    end.
Proof.
  intros Hattr Hname. unfold StyleClassTranslator, recorded, dependencies.
  rewrite Hattr, Hname. cbv zeta. cbn [context write].
  rewrite context_visit_properties. cbn [context write].
  destruct (QueryStringAttribute in_ "style:parent-style-name") as [parent|];
    destruct (QueryStringAttribute in_ "style:family") as [family|];
    cbn [fmap option_fmap option_map option_list option_rect app];
    unfold push_dependency; cbn [context styleDependencies]; [| done | done | done].
  rewrite lookup_insert_eq, insert_insert_eq. cbn. by rewrite <- (assoc_L (++)).
Qed.

Lemma StyleClassTranslator_cases (in_ : XMLElement) (st : State) :
  StyleClassTranslator in_ st = st
  ∨ (∃ msg, StyleClassTranslator in_ st = LOG WARNING msg st)
  ∨ ∃ attr nameAttr,
      elementToNameAttr !! Name in_ = Some attr ∧ FindAttribute in_ attr = Some nameAttr.
Proof.
  unfold StyleClassTranslator.
  destruct (elementToNameAttr !! Name in_) as [attr|] eqn:Hattr; [| by left].
  destruct (FindAttribute in_ attr) as [nameAttr|] eqn:Hname.
  - right; right. by exists attr, nameAttr.
  - right; left. by eexists.
Qed.

Lemma StyleClassTranslator_grows (in_ : XMLElement) (st : State) (name : string) :
  dependencies st name `prefix_of` dependencies (StyleClassTranslator in_ st) name.
Proof.
  destruct (StyleClassTranslator_cases in_ st)
    as [-> | [[msg ->] | (attr & nameAttr & Hattr & Hname)]]; [done | done |].
  unfold dependencies at 2. rewrite (StyleClassTranslator_map in_ st attr nameAttr) by done.
  destruct (recorded in_) as [|r rs]; [done |].
  destruct (decide (escapeStyleName (Value nameAttr) = name)) as [<- | Hne].
  - rewrite lookup_insert_eq. cbn. by apply prefix_app_r.
  - by rewrite lookup_insert_ne.
Qed.

(** Over a whole pass of [css], the entries of every name only grow at the
    end: none is dropped, replaced or reordered. *)
Theorem css_entries_grow (in_ : XMLElement) (context : Context)
    (glog : list (severity * string)) (name : string) :
  default [] (styleDependencies context !! name)
  `prefix_of` default [] (styleDependencies (css in_ context glog).1 !! name).
Proof.
  unfold css, visitElementChildren. cbn [fst styleDependencies].
  change (default [] (styleDependencies context !! name))
    with (dependencies {| out := output context; context := context; glog := glog |} name).
  generalize {| out := output context; context := context; glog := glog |}.
  induction (children in_) as [|n cs IH]; intros st; cbn [fold_left]; [done |].
  etrans; [| apply IH]. destruct n as [v | v | e]; [done | done |].
  apply StyleClassTranslator_grows.
Qed.


(** An element that is neither kind of style is passed over: no output, no
    entry, no record. *)
Theorem other_elements_ignored (in_ : XMLElement) (st : State) :
  Name in_ ≠ "style:default-style" → Name in_ ≠ "style:style" →
  StyleClassTranslator in_ st = st.
Proof.
  intros H1 H2. unfold StyleClassTranslator.
  by rewrite elementToNameAttr_other.
Qed.

Lemma other_elements_ignored_witness :
  StyleClassTranslator
    (mkElement "text:list-style" [mkAttribute "style:name" "L1"] []) resolved_S2
  = resolved_S2.
Proof.
  apply (other_elements_ignored
           (mkElement "text:list-style" [mkAttribute "style:name" "L1"] []));
    discriminate.
Defined.

(** A style without the attribute that names it (for a default style that
    is its family) is skipped with a warning: no rule, no entry. *)
Theorem unnamed_style_skipped (in_ : XMLElement) (st : State) :
  (Name in_ = "style:style" ∧ FindAttribute in_ "style:name" = None)
  ∨ (Name in_ = "style:default-style" ∧ FindAttribute in_ "style:family" = None) →
  StyleClassTranslator in_ st
  = LOG WARNING ("skipped style " +:+ Name in_ +:+ ". no name attribute.") st.
Proof.
  unfold StyleClassTranslator. intros [[Hname Hattr] | [Hname Hattr]]; rewrite Hname.
  - change (elementToNameAttr !! "style:style") with (Some "style:name").
    cbv beta iota. by rewrite Hattr, <- Hname.
  - change (elementToNameAttr !! "style:default-style") with (Some "style:family").
    cbv beta iota. by rewrite Hattr, <- Hname.
Qed.

Lemma unnamed_style_skipped_witness :
  StyleClassTranslator
    (mkElement "style:style" [mkAttribute "style:family" "paragraph"] []) empty_state
  = LOG WARNING
      ("skipped style "
       +:+ Name (mkElement "style:style" [mkAttribute "style:family" "paragraph"] [])
       +:+ ". no name attribute.") empty_state.
Proof.
  apply (unnamed_style_skipped
           (mkElement "style:style" [mkAttribute "style:family" "paragraph"] [])).
  left. split; reflexivity.
Defined.

(** A default style is filed under its family, and its family is also one
    of the entries it records: the family depends on itself. *)
Theorem default_style_depends_on_itself (in_ : XMLElement) (st : State)
    (family : string) :
  Name in_ = "style:default-style" →
  QueryStringAttribute in_ "style:family" = Some family →
  dependencies (StyleClassTranslator in_ st) (escapeStyleName family)
  = dependencies st (escapeStyleName family)
    ++ option_list (escapeStyleName
                      <$> QueryStringAttribute in_ "style:parent-style-name")
    ++ [escapeStyleName family].
Proof.
  intros Hname Hfamily. unfold QueryStringAttribute in Hfamily.
  destruct (FindAttribute in_ "style:family") as [nameAttr|] eqn:Hattr; [| done].
  injection Hfamily as <-. unfold dependencies at 1.
  rewrite (StyleClassTranslator_map in_ st "style:family" nameAttr);
    [| by rewrite Hname | done].
  unfold recorded, QueryStringAttribute at 2. rewrite Hattr.
  destruct (QueryStringAttribute in_ "style:parent-style-name");
    cbn [fmap option_fmap option_map option_list option_rect app];
    by rewrite lookup_insert_eq.
Qed.

Lemma default_style_depends_on_itself_witness :
  dependencies
    (StyleClassTranslator
       (mkElement "style:default-style" [mkAttribute "style:family" "table.cell"] [])
       empty_state)
    (escapeStyleName "table.cell")
  = dependencies empty_state (escapeStyleName "table.cell")
    ++ option_list (escapeStyleName
                      <$> QueryStringAttribute
                            (mkElement "style:default-style"
                               [mkAttribute "style:family" "table.cell"] [])
                            "style:parent-style-name")
    ++ [escapeStyleName "table.cell"].
Proof.
  apply (default_style_depends_on_itself
           (mkElement "style:default-style" [mkAttribute "style:family" "table.cell"] [])
           empty_state "table.cell"); reflexivity.
Defined.

(** A named style with neither a parent nor a family gets no entry at all,
    so an attribute that names it is reported as an unknown style unless an
    earlier style of that name left an entry. *)
Theorem bare_style_not_registered (in_ : XMLElement) (st : State)
    (nameAttr a : XMLAttribute) :
  Name in_ = "style:style" →
  FindAttribute in_ "style:name" = Some nameAttr →
  FindAttribute in_ "style:parent-style-name" = None →
  FindAttribute in_ "style:family" = None →
  styleDependencies (context st) !! Value a = None →
  styleDependencies (context (StyleClassTranslator in_ st))
  = styleDependencies (context st)
  ∧ AttributeTranslator_translate StyleAttributeTranslator a
      (StyleClassTranslator in_ st)
    = LOG WARNING ("unknown style: " +:+ Value a) (StyleClassTranslator in_ st).
Proof.
  intros Hname Hattr Hparent Hfamily Hnone.
  assert (Hmap : styleDependencies (context (StyleClassTranslator in_ st))
                 = styleDependencies (context st)).
  { rewrite (StyleClassTranslator_map in_ st "style:name" nameAttr);
      [| by rewrite Hname | done].
    unfold recorded, QueryStringAttribute. by rewrite Hparent, Hfamily. }
  split; [done |]. unfold AttributeTranslator_translate. by rewrite Hmap, Hnone.
Qed.

Lemma bare_style_not_registered_witness :
  styleDependencies
    (context (StyleClassTranslator
                (mkElement "style:style" [mkAttribute "style:name" "Plain"] [])
                empty_state))
  = styleDependencies (context empty_state)
  ∧ AttributeTranslator_translate StyleAttributeTranslator
      (mkAttribute "text:style-name" "Plain")
      (StyleClassTranslator
         (mkElement "style:style" [mkAttribute "style:name" "Plain"] []) empty_state)
    = LOG WARNING ("unknown style: " +:+ Value (mkAttribute "text:style-name" "Plain"))
        (StyleClassTranslator
           (mkElement "style:style" [mkAttribute "style:name" "Plain"] [])
           empty_state).
Proof.
  apply (bare_style_not_registered
           (mkElement "style:style" [mkAttribute "style:name" "Plain"] [])
           empty_state (mkAttribute "style:name" "Plain")
           (mkAttribute "text:style-name" "Plain")); reflexivity.
Defined.

(** The rule written for a style: the escaped name twice as a class
    selector, and in braces the declarations of the attributes of its element
    children, whatever the state; nothing is logged. *)
Theorem style_rule (in_ : XMLElement) (st : State) (attr : string)
    (nameAttr : XMLAttribute) :
  elementToNameAttr !! Name in_ = Some attr →
  FindAttribute in_ attr = Some nameAttr →
  out (StyleClassTranslator in_ st)
  = out st +:+ "." +:+ escapeStyleName (Value nameAttr)
      +:+ "." +:+ escapeStyleName (Value nameAttr) +:+ " {"
      +:+ declarations in_ +:+ "}" +:+ lf
  ∧ glog (StyleClassTranslator in_ st) = glog st.
Proof.
  intros Hattr Hname. unfold StyleClassTranslator. rewrite Hattr, Hname. cbv zeta.
  rewrite declarations_write. cbn [write out glog].
  split.
  - destruct (QueryStringAttribute in_ "style:parent-style-name");
      destruct (QueryStringAttribute in_ "style:family");
      cbn [push_dependency out]; by rewrite !app_assoc.
  - destruct (QueryStringAttribute in_ "style:parent-style-name");
      destruct (QueryStringAttribute in_ "style:family"); reflexivity.
Qed.

Lemma style_rule_witness :
  out (StyleClassTranslator heading_2 empty_state)
  = out empty_state +:+ "." +:+ escapeStyleName (Value (mkAttribute "style:name" "Heading.2"))
      +:+ "." +:+ escapeStyleName (Value (mkAttribute "style:name" "Heading.2")) +:+ " {"
      +:+ declarations heading_2 +:+ "}" +:+ lf
  ∧ glog (StyleClassTranslator heading_2 empty_state) = glog empty_state.
Proof.
  apply (style_rule heading_2 empty_state "style:name"
           (mkAttribute "style:name" "Heading.2")); reflexivity.
Defined.

(** Resolver and translator together: after a named style with a parent
    and a family, met first under its name, an attribute that names the style
    gets the class value family, parent, name. *)
Theorem resolved_style_class (in_ : XMLElement) (st : State)
    (S2 S1 family : string) (a : XMLAttribute) :
  Name in_ = "style:style" →
  QueryStringAttribute in_ "style:name" = Some S2 →
  QueryStringAttribute in_ "style:parent-style-name" = Some S1 →
  QueryStringAttribute in_ "style:family" = Some family →
  dependencies st (escapeStyleName S2) = [] →
  Value a = escapeStyleName S2 →
  out (AttributeTranslator_translate StyleAttributeTranslator a
         (StyleClassTranslator in_ st))
  = out (StyleClassTranslator in_ st) +:+ "class=" +:+ dq
      +:+ escapeStyleName family +:+ " " +:+ escapeStyleName S1 +:+ " "
      +:+ escapeStyleName S2 +:+ dq.
Proof.
  intros Hname HS2 HS1 Hfamily Hfresh Ha. unfold AttributeTranslator_translate.
  rewrite Ha, (StyleClassTranslator_appends in_ st S2 S1 family) by done.
  unfold dependencies in Hfresh. rewrite Hfresh.
  cbn [app rev fold_left write out]. by rewrite !app_assoc.
Qed.

Lemma resolved_style_class_witness :
  out (AttributeTranslator_translate StyleAttributeTranslator
         (mkAttribute "table:style-name" "Heading_2")
         (StyleClassTranslator heading_2 empty_state))
  = out (StyleClassTranslator heading_2 empty_state) +:+ "class=" +:+ dq
      +:+ escapeStyleName "Text" +:+ " " +:+ escapeStyleName "Heading.1" +:+ " "
      +:+ escapeStyleName "Heading.2" +:+ dq.
Proof.
  apply (resolved_style_class heading_2 empty_state "Heading.2" "Heading.1" "Text"
           (mkAttribute "table:style-name" "Heading_2")); reflexivity.
Defined.

(** *** The entries a style leaves, and the class written from them *)

Lemma push_dependency_lookup_ne name other dep st :
  other ≠ name →
  styleDependencies (context (push_dependency name dep st)) !! other
  = styleDependencies (context st) !! other.
Proof. intros Hne. unfold push_dependency; cbn. by apply lookup_insert_ne. Qed.

(** C7. A named style S2 that declares a parent style S1 and a family gets
    two more entries under its escaped name, after those already there: the
    parent first, the family second, each with every dot replaced by an
    underscore. When no entry was there they are the only two. The entries
    of every other name are left as they were. *)
Theorem StyleClassTranslator_appends_parent_family (in_ : XMLElement) (st : State)
    (S2 S1 family : string) :
  Name in_ = "style:style" →
  QueryStringAttribute in_ "style:name" = Some S2 →
  QueryStringAttribute in_ "style:parent-style-name" = Some S1 →
  QueryStringAttribute in_ "style:family" = Some family →
  styleDependencies (context (StyleClassTranslator in_ st)) !! map_chars escape_char S2
  = Some (dependencies st (map_chars escape_char S2)
          ++ [map_chars escape_char S1; map_chars escape_char family])
  ∧ (dependencies st (map_chars escape_char S2) = [] →
     styleDependencies (context (StyleClassTranslator in_ st)) !! map_chars escape_char S2
     = Some [map_chars escape_char S1; map_chars escape_char family])
  ∧ (∀ other : string,
       other ≠ map_chars escape_char S2 →
       styleDependencies (context (StyleClassTranslator in_ st)) !! other
       = styleDependencies (context st) !! other).
Proof.
  intros Hname HS2 HS1 Hfamily.
  pose proof (StyleClassTranslator_appends in_ st S2 S1 family Hname HS2 HS1 Hfamily)
    as Happ.
  rewrite !escapeStyleName_map in Happ. fold (dependencies st (map_chars escape_char S2)) in Happ.
  split; [exact Happ | split].
  - intros Hfresh. by rewrite Happ, Hfresh.
  - intros other Hne. unfold StyleClassTranslator. rewrite Hname.
    change (elementToNameAttr !! "style:style") with (Some "style:name").
    cbv beta iota. unfold QueryStringAttribute in HS2.
    destruct (FindAttribute in_ "style:name") as [nameAttr|]; [| done].
    injection HS2 as ->. rewrite HS1, Hfamily. cbv beta iota zeta.
    cbn [context write]. rewrite context_visit_properties. cbn [context write].
    rewrite <- escapeStyleName_map in Hne.
    by rewrite !push_dependency_lookup_ne.
Qed.

(** On the style Heading.2 with parent Heading.1 and family Text, met after
    the style S2. *)
Lemma StyleClassTranslator_appends_parent_family_witness :
  styleDependencies (context (StyleClassTranslator heading_2 resolved_S2)) !! "Heading_2"
  = Some ([] ++ ["Heading_1"; "Text"])
  ∧ (([] : list string) = [] →
     styleDependencies (context (StyleClassTranslator heading_2 resolved_S2)) !! "Heading_2"
     = Some ["Heading_1"; "Text"])
  ∧ (∀ other : string,
       other ≠ "Heading_2" →
       styleDependencies (context (StyleClassTranslator heading_2 resolved_S2)) !! other
       = styleDependencies (context resolved_S2) !! other).
Proof.
  exact (StyleClassTranslator_appends_parent_family heading_2 resolved_S2
           "Heading.2" "Heading.1" "Text" eq_refl eq_refl eq_refl eq_refl).
Defined.

(** C7, as the claim has it, fails for a style met twice: a second
    [style:style] named S2 leaves four entries under S2, not two. *)
Lemma repeated_style_counterexample :
  Name style_S2 = "style:style"
  ∧ QueryStringAttribute style_S2 "style:name" = Some "S2"
  ∧ QueryStringAttribute style_S2 "style:parent-style-name" = Some "S1"
  ∧ QueryStringAttribute style_S2 "style:family" = Some "Text"
  ∧ styleDependencies
      (css (mkElement "office:styles" [] [NElement style_S2; NElement style_S2])
           {| output := ""; styleDependencies := ∅ |} []).1 !! "S2"
    = Some ["S1"; "Text"; "S1"; "Text"]
  ∧ styleDependencies (context (StyleClassTranslator style_S2 resolved_S2)) !! "S2"
    = Some ["S1"; "Text"; "S1"; "Text"]
  ∧ ["S1"; "Text"; "S1"; "Text"] ≠ ["S1"; "Text"].
Proof. repeat split; try reflexivity. discriminate. Qed.

Lemma context_translate_attributes (in_ : XMLElement)
    (tbl : gmap string (option AttributeTranslator)) (attrs : list XMLAttribute)
    (st : State) :
  context (fold_left (translate_attribute in_ tbl) attrs st) = context st.
Proof.
  assert (H : writer (λ st, fold_left (translate_attribute in_ tbl) attrs st)).
  { apply writer_fold, Forall_forall. intros a _. apply writer_translate_attribute. }
  by rewrite (writer_run _ st H).
Qed.

(** What the attribute loop of a renaming translator does for an attribute
    its table hands to the [StyleAttributeTranslator]. *)
Lemma translate_attribute_class (in_ : XMLElement)
    (tbl : gmap string (option AttributeTranslator)) (st : State) (a : XMLAttribute) :
  tbl !! attr_Name a = Some (Some StyleAttributeTranslator) →
  translate_attribute in_ tbl st a
  = match styleDependencies (context st) !! Value a with
    | Some deps =>
        write (" class=" +:+ dq +:+ join_classes (rev deps) (Value a) +:+ dq) st
    | None => LOG WARNING ("unknown style: " +:+ Value a) (write " " st)
    end.
Proof.
  intros H. rewrite (translate_attribute_style _ _ _ _ H).
  unfold AttributeTranslator_translate. cbn [context write].
  destruct (styleDependencies (context st) !! Value a) as [deps|]; [| reflexivity].
  rewrite (write_fold (λ i, i +:+ " ")), !write_write. f_equal.
  rewrite !app_assoc, join_classes_fold. reflexivity.
Qed.

(** An attribute of another name does not change what [FindAttribute]
    finds. *)
Lemma FindAttribute_skip (name : string) (before after : list XMLAttribute)
    (children : list XMLNode) (a : XMLAttribute) (wanted : string) :
  attr_Name a ≠ wanted →
  FindAttribute (mkElement name (before ++ a :: after) children) wanted
  = FindAttribute (mkElement name (before ++ after) children) wanted.
Proof.
  intros Hne. unfold FindAttribute. cbn [attributes].
  induction before as [|b before IH]; cbn [app list_find].
  - rewrite decide_False by done. by destruct (list_find _ after) as [[i x]|].
  - destruct (decide (attr_Name b = wanted)); [reflexivity |].
    destruct (list_find _ (before ++ a :: after)) as [[i x]|];
      destruct (list_find _ (before ++ after)) as [[j y]|]; cbn in *; congruence.
Qed.

(** The translators that do not rename read one attribute by name, or
    none: a style attribute among the others changes nothing. *)
Lemma translateStart_skip (t : ElementTranslator) (name : string)
    (before after : list XMLAttribute) (children : list XMLNode) (a : XMLAttribute)
    (st : State) :
  attr_Name a = "text:style-name" ∨ attr_Name a = "table:style-name" →
  (∀ tag newAttributes tbl, t ≠ DefaultElementTranslator tag newAttributes tbl) →
  translateStart t (mkElement name (before ++ a :: after) children) st
  = translateStart t (mkElement name (before ++ after) children) st.
Proof.
  intros Ha Ht.
  assert (Hskip : ∀ wanted,
            wanted ≠ "text:style-name" → wanted ≠ "table:style-name" →
            FindAttribute (mkElement name (before ++ a :: after) children) wanted
            = FindAttribute (mkElement name (before ++ after) children) wanted).
  { intros wanted H1 H2. apply FindAttribute_skip. destruct Ha as [-> | ->]; congruence. }
  destruct t as [tag newAttributes tbl | | | |]; cbn [translateStart].
  - by destruct (Ht tag newAttributes tbl).
  - unfold Int64Attribute, QueryInt64Attribute. by rewrite Hskip.
  - reflexivity.
  - by rewrite Hskip.
  - by rewrite Hskip.
Qed.

(** C2, as the code has it. In an element the table renames, an attribute
    [text:style-name] or [table:style-name], whose value escaping leaves as it
    is, is written where it stands among the element's attributes: when the
    map knows the style, as a blank and one [class] attribute that lists the
    entries of the style from the last stored to the first (the family, then
    the parent style), each followed by a blank, and then the name; when the
    map lacks it, as the blank alone, with a warning logged. In every other
    element (one with a translator of its own, one the table drops or lacks)
    the attribute changes nothing: no class is written and no warning is
    logged for it. *)
Theorem style_attribute_class (name : string) (before after : list XMLAttribute)
    (children : list XMLNode) (a : XMLAttribute) (st : State) :
  attr_Name a = "text:style-name" ∨ attr_Name a = "table:style-name" →
  escapeStyleName (Value a) = Value a →
  (∀ (tag : string) (newAttributes : list (string * string))
     (tbl : gmap string (option AttributeTranslator)),
     elementTranslator !! name
       = Some (Some (DefaultElementTranslator tag newAttributes tbl)) →
     translate (mkElement name (before ++ a :: after) children) st
     = let in_ := mkElement name (before ++ a :: after) children in
       let opened :=
         fold_left (translate_attribute in_ tbl) before
           (write ("<" +:+ tag +:+ new_attributes_text newAttributes) st) in
       let classed :=
         match styleDependencies (context st) !! escapeStyleName (Value a) with
         | Some deps =>
             write (" class=" +:+ dq
                    +:+ join_classes (rev deps) (escapeStyleName (Value a)) +:+ dq)
                   opened
         | None => LOG WARNING ("unknown style: " +:+ Value a) (write " " opened)
         end in
       write ("</" +:+ tag +:+ ">")
         (translate_children children
            (write ">" (fold_left (translate_attribute in_ tbl) after classed))))
  ∧ ((∀ (tag : string) (newAttributes : list (string * string))
        (tbl : gmap string (option AttributeTranslator)),
        elementTranslator !! name
          ≠ Some (Some (DefaultElementTranslator tag newAttributes tbl))) →
     translate (mkElement name (before ++ a :: after) children) st
     = translate (mkElement name (before ++ after) children) st).
Proof.
  intros Ha Hesc. split.
  - intros tag newAttributes tbl Hlookup. cbv zeta. rewrite Hesc.
    rewrite translate_eq. cbv zeta. rewrite Hlookup.
    cbn [mbind option_bind id translateStart translateEnd attributes].
    rewrite new_attributes_fold, write_write, fold_left_app. cbn [fold_left].
    assert (Htbl : tbl !! attr_Name a = Some (Some StyleAttributeTranslator)).
    { pose proof (style_name_attributes_resolved _ _ Hlookup) as Hres.
      cbn [resolves_style_names] in Hres.
      apply andb_true_iff in Hres as [H1 H2].
      apply bool_decide_eq_true in H1, H2. by destruct Ha as [-> | ->]. }
    rewrite (translate_attribute_class _ _ _ _ Htbl), context_translate_attributes.
    cbn [context write]. reflexivity.
  - intros Hother. rewrite !translate_eq. cbv zeta.
    destruct (elementTranslator !! name) as [[t|]|] eqn:Hlookup;
      cbn [mbind option_bind id]; [| reflexivity | reflexivity].
    rewrite (translateStart_skip t name before after children a st Ha).
    + by destruct t.
    + intros tag newAttributes tbl ->. by apply (Hother tag newAttributes tbl).
Qed.

(** A paragraph that names the resolved style S2, and a link that does. *)
Lemma style_attribute_class_witness :
  translate (mkElement "text:p" [mkAttribute "text:style-name" "S2"] [NText "hello"])
            resolved_S2
  = write "</p>"
      (write "hello"
         (write ">"
            (write (" class=" +:+ dq +:+ "Text S1 S2" +:+ dq)
                   (write "<p" resolved_S2))))
  ∧ translate (mkElement "text:a"
                 [mkAttribute "xlink:href" "#top"; mkAttribute "text:style-name" "S2"]
                 [NText "up"]) resolved_S2
    = translate (mkElement "text:a" [mkAttribute "xlink:href" "#top"] [NText "up"])
                resolved_S2.
Proof.
  split.
  - etrans.
    + apply (proj1 (style_attribute_class "text:p" [] [] [NText "hello"]
                      (mkAttribute "text:style-name" "S2") resolved_S2
                      (or_introl eq_refl) eq_refl)
               "p" []
               (assign_all [("text:style-name", Some StyleAttributeTranslator);
                            ("table:style-name", Some StyleAttributeTranslator)] ∅)).
      reflexivity.
    + reflexivity.
  - apply (proj2 (style_attribute_class "text:a" [mkAttribute "xlink:href" "#top"] []
                    [NText "up"] (mkAttribute "text:style-name" "S2") resolved_S2
                    (or_introl eq_refl) eq_refl)).
    intros tag newAttributes tbl.
    change (elementTranslator !! "text:a") with (Some (Some LinkTranslator)).
    discriminate.
Defined.

(** C2, as the claim has it, fails on three counts: the resolver stores S1
    and then Text for S2 and the class lists Text and then S1; a style the
    map lacks leaves a blank in the tag; and a link that names S2 gets no
    class, as it gets no warning when it names a style the map lacks. *)
Lemma style_class_counterexample :
  styleDependencies (context resolved_S2) !! "S2" = Some ["S1"; "Text"]
  ∧ out (translate (mkElement "text:p" [mkAttribute "text:style-name" "S2"] [])
                   resolved_S2)
    = "<p class=" +:+ dq +:+ "Text S1 S2" +:+ dq +:+ "></p>"
  ∧ "<p class=" +:+ dq +:+ "Text S1 S2" +:+ dq +:+ "></p>"
    ≠ "<p class=" +:+ dq +:+ "S1 Text S2" +:+ dq +:+ "></p>"
  ∧ styleDependencies (context resolved_S2) !! "Body" = None
  ∧ translate (mkElement "text:p" [mkAttribute "text:style-name" "Body"] [])
              resolved_S2
    = LOG WARNING "unknown style: Body" (write "<p ></p>" resolved_S2)
  ∧ "<p ></p>" ≠ "<p></p>"
  ∧ translate (mkElement "text:a" [mkAttribute "text:style-name" "S2"] [])
              resolved_S2
    = LOG WARNING "empty link" (write "<a></a>" resolved_S2)
  ∧ translate (mkElement "text:a" [mkAttribute "text:style-name" "Body"] [])
              resolved_S2
    = LOG WARNING "empty link" (write "<a></a>" resolved_S2).
Proof.
  split; [reflexivity |]. split; [reflexivity |]. split; [discriminate |].
  split; [reflexivity |]. split; [reflexivity |]. split; [discriminate |].
  split; reflexivity.
Qed.

End StyleSheetProperties.

(** ** CryptoUtil.cpp: results and failures *)

Module CryptoUtilFurther.
Import CryptoUtil Samples CryptoUtilProperties CryptoUtilDigests.

Lemma store_exact (buffer written : bytes) :
  length written = length buffer → store buffer written (length buffer) = written.
Proof.
  intros H. unfold store. rewrite Nat.min_id, <- H, firstn_all, H.
  by rewrite drop_all, app_nil_r.
Qed.

Section Further.
Context {Decryption : Type} `{!CryptoPP Decryption}.

Lemma process_exact (d : Decryption) (input : bytes) :
  length (ProcessData d input) = length input → process d input = ProcessData d input.
Proof.
  intros H. unfold process.
  rewrite <- (length_zeroed (length input)) at 2.
  apply store_exact. by rewrite length_zeroed.
Qed.

(** A key or an IV the cipher refuses is the caller's exception, unchanged;
    and when the cipher writes as many bytes as it was given, the result is
    those bytes and nothing else. *)
Theorem decrypt_is_the_cipher (key iv input : bytes) :
  (∀ e, SetKeyWithIV CBC_AES key iv = Thrown e → decryptAES key iv input = Thrown e)
  ∧ (∀ e, SetKeyWithIV CBC_DES_EDE3 key iv = Thrown e →
          decryptTripleDES key iv input = Thrown e)
  ∧ (∀ e, SetKeyWithIV CFB_Blowfish key iv = Thrown e →
          decryptBlowfish key iv input = Thrown e)
  ∧ (∀ e, SetKey ECB_AES key = Thrown e → decryptAES_ECB key input = Thrown e)
  ∧ (∀ d : Decryption, length (ProcessData d input) = length input →
       (SetKeyWithIV CBC_AES key iv = Returned d →
        decryptAES key iv input = Returned (ProcessData d input))
       ∧ (SetKeyWithIV CBC_DES_EDE3 key iv = Returned d →
          decryptTripleDES key iv input = Returned (ProcessData d input))
       ∧ (SetKeyWithIV CFB_Blowfish key iv = Returned d →
          decryptBlowfish key iv input = Returned (ProcessData d input))
       ∧ (SetKey ECB_AES key = Returned d →
          decryptAES_ECB key input = Returned (ProcessData d input))).
Proof.
  unfold decryptAES, decryptTripleDES, decryptBlowfish, decryptAES_ECB.
  split; [by intros e -> |]. split; [by intros e -> |].
  split; [by intros e -> |]. split; [by intros e -> |].
  intros d Hlen. pose proof (process_exact d input Hlen) as Hp.
  split; [| split; [| split]]; intros ->; cbn; by rewrite Hp.
Qed.

End Further.

Lemma decrypt_is_the_cipher_witness :
  decryptAES_ECB toy_key16 toy_input
  = Returned (ProcessData (mkToy toy_key16 []) toy_input).
Proof.
  refine (proj2 (proj2 (proj2
            (proj2 (proj2 (proj2 (proj2
               (decrypt_is_the_cipher toy_key16 toy_iv8 toy_input))))
               (mkToy toy_key16 []) _))) _); reflexivity.
Defined.

Section Digests.
Context `{!CryptoPPHash}.

(** Digests and derived keys have their fixed sizes, whatever the library
    writes and whatever the array held before. *)
Theorem digest_sizes (garbage in_ startKey salt : bytes) (keySize iterationCount : nat) :
  length (sha1 garbage in_) = 20%nat
  ∧ length (sha256 garbage in_) = 32%nat
  ∧ length (pbkdf2 keySize startKey salt iterationCount) = keySize.
Proof.
  unfold sha1, sha256, calculate, pbkdf2.
  rewrite !length_store, !length_take, !length_app, !length_zeroed.
  unfold DIGESTSIZE. lia.
Qed.

End Digests.

End CryptoUtilFurther.
